(** * Punchax: extension discovery and the extension lifecycle commands

    A shallow embedding of [bot.py] (class [Punchax]) and of the extension
    commands of [cogs/admin.py] (class [Admin]), with the properties of the
    lifecycle manager proved about them.

    Python [str] values are [string]s, Python lists are [list]s, the
    [bot.extensions] mapping is an insertion-ordered association list, and
    the coroutines are functions in a state-and-exception monad over the
    state of the bot. *)

From Stdlib Require Import String Ascii List Bool Arith Lia.
From Stdlib Require Import DecimalString ZArith.
Import ListNotations.
Open Scope string_scope.

(** ** Python string operations used by the source *)

Module PyStr.

(** [s.endswith(suffix)] *)
Fixpoint endswith (s suffix : string) : bool :=
  if String.eqb s suffix then true
  else match s with
       | EmptyString => false
       | String _ t => endswith t suffix
       end.

(** [s.startswith(p)] *)
Fixpoint startswith (s p : string) : bool :=
  match p, s with
  | EmptyString, _ => true
  | String a p', String b s' => Ascii.eqb a b && startswith s' p'
  | String _ _, EmptyString => false
  end.

(** [needle in s] *)
Fixpoint contains (needle s : string) : bool :=
  startswith s needle
  || match s with
     | EmptyString => false
     | String _ t => contains needle t
     end.

(** The first [n] characters, [s[:n]] for a non-negative [n]. *)
Fixpoint take (n : nat) (s : string) : string :=
  match n, s with
  | S k, String a t => String a (take k t)
  | _, _ => EmptyString
  end.

(** [s[:-n]] for a positive [n]: everything but the last [n] characters
    (the empty string when [s] is shorter). *)
Definition slice_to_neg (n : nat) (s : string) : string :=
  take (String.length s - n) s.

(** [s.replace(old, new)] for a non-empty [old]: occurrences are replaced
    left to right and do not overlap; [skip] counts the characters of the
    occurrence just replaced that are still to be passed over. *)
Fixpoint replace_from (old new : string) (skip : nat) (s : string) : string :=
  match s with
  | EmptyString => EmptyString
  | String a t =>
      match skip with
      | S k => replace_from old new k t
      | O =>
          if startswith s old
          then new ++ replace_from old new (String.length old - 1) t
          else String a (replace_from old new 0 t)
      end
  end.

(** With an empty [old], Python puts [new] before every character and at
    the end. *)
Fixpoint intersperse_all (new s : string) : string :=
  match s with
  | EmptyString => new
  | String a t => new ++ String a (intersperse_all new t)
  end.

Definition replace (old new s : string) : string :=
  match old with
  | EmptyString => intersperse_all new s
  | String _ _ => replace_from old new 0 s
  end.

(** [sep.join(items)] *)
Fixpoint join (sep : string) (items : list string) : string :=
  match items with
  | [] => EmptyString
  | [x] => x
  | x :: rest => x ++ sep ++ join sep rest
  end.

(** [str(n)] for a natural number *)
Definition str_of_nat (n : nat) : string :=
  NilEmpty.string_of_uint (Nat.to_uint n).

(** [x in items] for a list of strings *)
Definition mem (x : string) (items : list string) : bool :=
  existsb (String.eqb x) items.

End PyStr.

(** ** Exceptions *)

(** The classes of the exceptions the modelled code raises and catches.
    [ExtensionAlreadyLoaded] is the class [_reload_all] and
    [reload_or_load_extension] catch by name ([AlreadyLoadedError] in the
    specification); [FileNotFoundError] is what [os.listdir] raises on a
    missing directory ([DiscoveryError] in the specification). *)
Inductive ErrorKind : Type :=
| ExtensionAlreadyLoaded
| LoadError
| UnloadError
| FileNotFoundError
| UnexpectedError.

(** [e.__class__.__name__] *)
Definition class_name (k : ErrorKind) : string :=
  match k with
  | ExtensionAlreadyLoaded => "ExtensionAlreadyLoaded"
  | LoadError => "LoadError"
  | UnloadError => "UnloadError"
  | FileNotFoundError => "FileNotFoundError"
  | UnexpectedError => "UnexpectedError"
  end.

(** An exception value: its class and [str(e)]. *)
Record Exn : Type := mkExn { exn_kind : ErrorKind; exn_msg : string }.

Inductive Result (A : Type) : Type :=
| Ok (a : A)
| Raise (e : Exn).
Arguments Ok {A} a.
Arguments Raise {A} e.

(** ** bot.py: discovery *)

Definition IGNORED_EXTENSIONS : list string := ["!"; "__init__"].
Definition EXTENSIONS_DIRS : list string := ["./cogs"; "./cogs/minigames"].

(** What [os.listdir] answers for a path: the names in the directory, or
    [None] when the directory does not exist. *)
Definition Filesystem : Type := string -> option (list string).

Definition os_listdir (fs : Filesystem) (path : string) : Result (list string) :=
  match fs path with
  | Some names => Ok names
  | None =>
      Raise (mkExn FileNotFoundError
               ("[Errno 2] No such file or directory: '" ++ path ++ "'"))
  end.

(** [ext_dir.replace("./", "").replace("/", ".")] *)
Definition dotted (ext_dir : string) : string :=
  PyStr.replace "/" "." (PyStr.replace "./" "" ext_dir).

(** The inner [for filename in os.listdir(ext_dir)] loop of both discovery
    functions; they differ in the test [keep] only.  The loop variable
    [ext_dir] is reassigned in the body, so it is threaded through. *)
Fixpoint scan_filenames (keep : string -> bool) (ext_dir : string)
    (filenames : list string) (extensions : list string) : list string :=
  match filenames with
  | [] => extensions
  | filename :: rest =>
      if keep filename then
        let ext_dir := dotted ext_dir in
        scan_filenames keep ext_dir rest
          (extensions ++ [ext_dir ++ "." ++ PyStr.slice_to_neg 3 filename])
      else scan_filenames keep ext_dir rest extensions
  end.

(** The outer [for ext_dir in EXTENSIONS_DIRS] loop. *)
Fixpoint scan_dirs (keep : string -> bool) (fs : Filesystem)
    (dirs : list string) (extensions : list string) : Result (list string) :=
  match dirs with
  | [] => Ok extensions
  | ext_dir :: rest =>
      match os_listdir fs ext_dir with
      | Raise e => Raise e
      | Ok filenames =>
          scan_dirs keep fs rest (scan_filenames keep ext_dir filenames extensions)
      end
  end.

(** The test of [get_all_extensions]:
    [filename.endswith(".py") and filename != "__init__.py"]. *)
Definition keep_all (filename : string) : bool :=
  PyStr.endswith filename ".py" && negb (String.eqb filename "__init__.py").

(** The test of [get_allowed_extensions]: [filename.endswith(".py") and
    not any(ignore in filename for ignore in IGNORED_EXTENSIONS)]. *)
Definition keep_allowed (filename : string) : bool :=
  PyStr.endswith filename ".py"
  && negb (existsb (fun ignore => PyStr.contains ignore filename) IGNORED_EXTENSIONS).

Definition get_all_extensions (fs : Filesystem) : Result (list string) :=
  scan_dirs keep_all fs EXTENSIONS_DIRS [].

(** The [print(ext_dir)] of the source writes to the standard output only
    and is left out. *)
Definition get_allowed_extensions (fs : Filesystem) : Result (list string) :=
  scan_dirs keep_allowed fs EXTENSIONS_DIRS [].

(** The identifier derived from a directory and a file name. *)
Definition identifier (ext_dir filename : string) : string :=
  dotted ext_dir ++ "." ++ PyStr.slice_to_neg 3 filename.

(** A small file system for the examples. *)
Definition demo_fs : Filesystem :=
  fun path =>
    if String.eqb path "./cogs"
    then Some ["__init__.py"; "admin.py"; "!wip.py"; "error.py"; "minigames"; "notes.txt"]
    else if String.eqb path "./cogs/minigames"
    then Some ["__init__.py"; "chess.py"; "old__init__x.py"]
    else None.

(** ** The monad of the coroutines

    A coroutine of the bot is a function from the state to a result (a
    value, or a raised exception) and the state it leaves; the state an
    exception leaves behind is kept, as in Python. *)

Definition M (S A : Type) : Type := S -> Result A * S.

Definition ret {S A : Type} (a : A) : M S A := fun s => (Ok a, s).

Definition raise {S A : Type} (e : Exn) : M S A := fun s => (Raise e, s).

Definition bind {S A B : Type} (c : M S A) (k : A -> M S B) : M S B :=
  fun s =>
    match c s with
    | (Ok a, s') => k a s'
    | (Raise e, s') => (Raise e, s')
    end.

(** [try: body / except Exception as e: handler / else: orelse] *)
Definition try_except_else {S A B : Type}
    (body : M S A) (handler : Exn -> M S B) (orelse : A -> M S B) : M S B :=
  fun s =>
    match body s with
    | (Ok a, s') => orelse a s'
    | (Raise e, s') => handler e s'
    end.

(** [try: body / except Exception as e: handler] *)
Definition try_except {S A : Type} (body : M S A) (handler : Exn -> M S A) : M S A :=
  try_except_else body handler ret.

Definition get {S : Type} : M S S := fun s => (Ok s, s).

Definition lift {S A : Type} (r : Result A) : M S A := fun s => (r, s).

(** [for x in items: acc = step(x, acc)] *)
Fixpoint for_each {S A : Type} (step : string -> A -> M S A)
    (items : list string) (acc : A) : M S A :=
  match items with
  | [] => ret acc
  | x :: rest => bind (step x acc) (for_each step rest)
  end.

Declare Scope py_scope.
Delimit Scope py_scope with py.
Notation "x <- c1 ;; c2" := (bind c1 (fun x => c2))
  (at level 61, c1 at next level, right associativity) : py_scope.
Notation "c1 ;; c2" := (bind c1 (fun _ => c2))
  (at level 61, right associativity) : py_scope.
Open Scope py_scope.

(** ** The state of the bot *)

Module LogLevel.
Inductive t : Type := info | error.
End LogLevel.

(** [extensions] is the mapping behind [bot.extensions], from the name of
    an active extension to its handle, in insertion order; [host] is the
    state of the Host Module System; [logged] collects the calls of
    [utils.debug.log], a helper that is not among the sources. *)
Record Bot (Host Handle : Type) : Type := mkBot {
  extensions : list (string * Handle);
  host : Host;
  logged : list (LogLevel.t * string)
}.
Arguments mkBot {Host Handle} _ _ _.
Arguments extensions {Host Handle} _.
Arguments host {Host Handle} _.
Arguments logged {Host Handle} _.

(** Modelled from the spec: the Host Module System, the external facility
    that runs an extension's own setup and teardown code.  [instantiate]
    answers the message of the exception the setup raised, or the handle of
    the extension; [teardown] answers the message of the exception the
    teardown raised, if any.  Both may change the state of the host. *)
Class HostModuleSystem (Host Handle : Type) : Type := {
  instantiate : string -> Host -> (string + Handle) * Host;
  teardown : Handle -> Host -> option string * Host
}.

(** The constants of [cogs/common.py] the report uses; that file is not
    among the sources, so they are parameters. *)
Record Common : Type := mkCommon {
  Emoji_arrow_up : string;
  Emoji_arrow_down : string;
  Emoji_arrows_counterclockwise : string;
  Emoji_x : string;
  Color_info : nat
}.

(** A [discord.Embed], as far as the commands fill it. *)
Record Embed : Type := mkEmbed {
  color : nat;
  description : string;
  title : option string
}.

(** [embed.title = title] *)
Definition set_title (title : string) (embed : Embed) : Embed :=
  mkEmbed (color embed) (description embed) (Some title).

(** The four lists [_reload_all] collects. *)
Record Outcomes : Type := mkOutcomes {
  loaded : list string;
  unloaded : list string;
  reloaded : list string;
  failed : list string
}.

Module _ExtensionState.
Inductive t : Type := loaded | unloaded | reloaded.
End _ExtensionState.

Definition nl : string := String "010"%char EmptyString.

(** [f"`{extension}`"] *)
Definition tick (extension : string) : string := "`" ++ extension ++ "`".

(** [f"`{extension}`: `{e.__class__.__name__}`"] *)
Definition failed_item (extension : string) (e : Exn) : string :=
  "`" ++ extension ++ "`: `" ++ class_name (exn_kind e) ++ "`".

(** *** The mapping of active extensions *)

Section Registry.
Context {Handle : Type}.

(** [name in extensions] *)
Definition is_loaded (name : string) (exts : list (string * Handle)) : bool :=
  existsb (fun kv => String.eqb (fst kv) name) exts.

(** [extensions.get(name)] *)
Fixpoint dict_get (name : string) (exts : list (string * Handle)) : option Handle :=
  match exts with
  | [] => None
  | (k, v) :: rest => if String.eqb k name then Some v else dict_get name rest
  end.

(** [extensions[name] = handle]: a present key keeps its place. *)
Fixpoint dict_set (name : string) (handle : Handle)
    (exts : list (string * Handle)) : list (string * Handle) :=
  match exts with
  | [] => [(name, handle)]
  | (k, v) :: rest =>
      if String.eqb k name then (k, handle) :: rest
      else (k, v) :: dict_set name handle rest
  end.

(** [extensions.pop(name, None)] *)
Definition dict_pop (name : string) (exts : list (string * Handle))
    : list (string * Handle) :=
  filter (fun kv => negb (String.eqb (fst kv) name)) exts.

(** The keys, as iterating over the mapping gives them. *)
Definition keys (exts : list (string * Handle)) : list string := map fst exts.

(** [[ext for ext in self.bot.extensions if ext not in available_extensions]] *)
Definition future_unload (exts : list (string * Handle))
    (available_extensions : list string) : list string :=
  filter (fun ext => negb (PyStr.mem ext available_extensions)) (keys exts).

End Registry.

(** ** The lifecycle operations and the commands of [Admin] *)

Section Lifecycle.
Context {Host Handle : Type} {HMS : HostModuleSystem Host Handle}.
Variable common : Common.

Local Abbreviation BotM := (M (Bot Host Handle)).

(** *** [bot.load_extension], [bot.unload_extension], [bot.reload_extension]

    The class [Punchax] inherits the three from the [commands.Bot] of the
    discord.py library, which is not among the sources. *)

(** Modelled from the spec: [load(id)], missing from the sources.  It asks
    the Host Module System to instantiate the extension and on success
    inserts [id] into the Registry; it fails with [AlreadyLoadedError] if
    [id] is already active, or with [LoadError] if the extension's own
    initialization raised, the Registry unchanged in both cases. *)
Definition load_extension (name : string) : BotM unit :=
  fun bot =>
    if is_loaded name (extensions bot)
    then (Raise (mkExn ExtensionAlreadyLoaded
                   ("Extension '" ++ name ++ "' is already loaded.")), bot)
    else
      match instantiate name (host bot) with
      | (inl msg, host') =>
          (Raise (mkExn LoadError msg), mkBot (extensions bot) host' (logged bot))
      | (inr handle, host') =>
          (Ok tt, mkBot (dict_set name handle (extensions bot)) host' (logged bot))
      end.

(** Modelled from the spec: [unload(id)], missing from the sources.  It
    asks the Host Module System to tear down the extension and on success
    removes [id] from the Registry; it fails with [UnloadError] if the
    teardown raised, the Registry left with [id] still present.  The spec
    names no error for an [id] that is not active: there is no handle to
    tear down, and the call fails with the uncategorized error. *)
Definition unload_extension (name : string) : BotM unit :=
  fun bot =>
    match dict_get name (extensions bot) with
    | None =>
        (Raise (mkExn UnexpectedError
                  ("Extension '" ++ name ++ "' has not been loaded.")), bot)
    | Some handle =>
        match teardown handle (host bot) with
        | (Some msg, host') =>
            (Raise (mkExn UnloadError msg), mkBot (extensions bot) host' (logged bot))
        | (None, host') =>
            (Ok tt, mkBot (dict_pop name (extensions bot)) host' (logged bot))
        end
    end.

(** Modelled from the spec: [reload(id)], missing from the sources:
    [unload(id)] followed by [load(id)], executed sequentially; the error
    of the step that fails is the error of the reload, and nothing is
    rolled back. *)
Definition reload_extension (name : string) : BotM unit :=
  unload_extension name ;; load_extension name.

(** *** bot.py: [Punchax.init_extensions] *)

(** [log(message, level=level)] of [utils.debug] *)
Definition log (message : string) (level : LogLevel.t) : BotM unit :=
  fun bot =>
    (Ok tt, mkBot (extensions bot) (host bot) (logged bot ++ [(level, message)])).

(** The body of the loop of [init_extensions]. *)
Definition init_step (ext : string) (_ : unit) : BotM unit :=
  try_except
    (load_extension ext)
    (fun e =>
       log (class_name (exn_kind e) ++ ": " ++ exn_msg e) LogLevel.error ;;
       raise e).

Definition init_extensions (fs : Filesystem) : BotM unit :=
  extensions <- lift (get_allowed_extensions fs) ;;
  for_each init_step extensions tt.

(** *** cogs/admin.py *)

(** The [reload <extension>] command; the result is the text it replies. *)
Definition _reload (extension : string) : BotM string :=
  try_except_else
    (reload_extension extension)
    (fun e =>
       ret ("**Failed reloading `" ++ extension ++ "`!**" ++ nl
            ++ "```" ++ class_name (exn_kind e) ++ ": " ++ exn_msg e ++ "```"))
    (fun _ => ret ("**Successfully reloaded `" ++ extension ++ "`!**")).

(** [except errors.ExtensionAlreadyLoaded]: any other exception goes on. *)
Definition reload_or_load_extension (extension : string) : BotM _ExtensionState.t :=
  try_except
    (load_extension extension ;;
     ret _ExtensionState.loaded)
    (fun e =>
       match exn_kind e with
       | ExtensionAlreadyLoaded =>
           reload_extension extension ;;
           ret _ExtensionState.reloaded
       | _ => raise e
       end).

Definition create_cogs_embed (loaded unloaded : list string)
    (reloaded failed : option (list string)) : Embed :=
  let reloaded := match reloaded with None => [] | Some l => l end in
  let failed := match failed with None => [] | Some l => l end in
  let loaded_content := PyStr.join nl loaded in
  let unloaded_content := PyStr.join nl unloaded in
  let reloaded_content := PyStr.join nl reloaded in
  let failed_content := PyStr.join nl failed in
  let loaded_content :=
    if Nat.ltb 0 (List.length loaded)
    then Emoji_arrow_up common ++ " **Loaded - ["
         ++ PyStr.str_of_nat (List.length loaded) ++ "]**" ++ nl
         ++ loaded_content ++ nl ++ nl
    else loaded_content in
  let unloaded_content :=
    if Nat.ltb 0 (List.length unloaded)
    then Emoji_arrow_down common ++ " **Unloaded - ["
         ++ PyStr.str_of_nat (List.length unloaded) ++ "]**" ++ nl
         ++ unloaded_content ++ nl ++ nl
    else unloaded_content in
  let reloaded_content :=
    if Nat.ltb 0 (List.length reloaded)
    then Emoji_arrows_counterclockwise common ++ " **Reloaded - ["
         ++ PyStr.str_of_nat (List.length reloaded) ++ "]**" ++ nl
         ++ reloaded_content ++ nl ++ nl
    else reloaded_content in
  let failed_content :=
    if Nat.ltb 0 (List.length failed)
    then Emoji_x common ++ " **Failed - ["
         ++ PyStr.str_of_nat (List.length failed) ++ "]**" ++ nl
         ++ failed_content
    else failed_content in
  mkEmbed (Color_info common)
    (loaded_content ++ unloaded_content ++ reloaded_content ++ failed_content)
    None.

(** The body of the first loop of [_reload_all], over [future_unload]. *)
Definition unload_step (extension : string) (acc : Outcomes) : BotM Outcomes :=
  try_except
    (unload_extension extension ;;
     ret (mkOutcomes (loaded acc) (unloaded acc ++ [tick extension])
            (reloaded acc) (failed acc)))
    (fun e =>
       ret (mkOutcomes (loaded acc) (unloaded acc) (reloaded acc)
              (failed acc ++ [failed_item extension e]))).

(** The body of the second loop of [_reload_all], over
    [available_extensions]. *)
Definition load_step (extension : string) (acc : Outcomes) : BotM Outcomes :=
  try_except_else
    (reload_or_load_extension extension)
    (fun e =>
       ret (mkOutcomes (loaded acc) (unloaded acc) (reloaded acc)
              (failed acc ++ [failed_item extension e])))
    (fun ext_state =>
       let ext_str := tick extension in
       match ext_state with
       | _ExtensionState.loaded =>
           ret (mkOutcomes (loaded acc ++ [ext_str]) (unloaded acc)
                  (reloaded acc) (failed acc))
       | _ExtensionState.reloaded =>
           ret (mkOutcomes (loaded acc) (unloaded acc)
                  (reloaded acc ++ [ext_str]) (failed acc))
       | _ExtensionState.unloaded => ret acc
       end).

(** Lines 135 to 158 of [_reload_all]: the pass over a given list of
    available extensions, [reconcile(desired)] in the specification. *)
Definition reconcile (available_extensions : list string) : BotM Outcomes :=
  bot <- get ;;
  let future_unload := future_unload (extensions bot) available_extensions in
  acc <- for_each unload_step future_unload (mkOutcomes [] [] [] []) ;;
  for_each load_step available_extensions acc.

(** The [reload all] command; the result is the embed it replies. *)
Definition _reload_all (fs : Filesystem) : BotM Embed :=
  available_extensions <- lift (get_allowed_extensions fs) ;;
  acc <- reconcile available_extensions ;;
  let embed :=
    create_cogs_embed (loaded acc) (unloaded acc)
      (Some (reloaded acc)) (Some (failed acc)) in
  ret (set_title "Cogs Update" embed).

(** The lists [_cogs_list] hands to [create_cogs_embed]. *)
Definition cogs_list_unloaded (all_extensions : list string)
    (exts : list (string * Handle)) : list string :=
  map tick (filter (fun ext => negb (is_loaded ext exts)) all_extensions).

Definition cogs_list_loaded (exts : list (string * Handle)) : list string :=
  map tick (keys exts).

(** The [cogs list] command; the result is the embed it replies. *)
Definition _cogs_list (fs : Filesystem) : BotM Embed :=
  all_extensions <- lift (get_all_extensions fs) ;;
  bot <- get ;;
  let unloaded := cogs_list_unloaded all_extensions (extensions bot) in
  let loaded := cogs_list_loaded (extensions bot) in
  let embed := create_cogs_embed loaded unloaded None None in
  ret (set_title "Cogs List" embed).

End Lifecycle.

(** [Registry.contains(id)] of the specification. *)
Definition active {Host Handle : Type} (id : string) (bot : Bot Host Handle) : bool :=
  is_loaded id (extensions bot).

(** The pass recorded a failure for the identifier: one of the items of
    the failed list is the item of [id] with some exception. *)
Definition failed_for (id : string) (acc : Outcomes) : Prop :=
  exists e, In (failed_item id e) (failed acc).

(** *** The invariants of the loops of [_reload_all] *)

(** The invariant of the first loop, started with empty lists in the state
    [bot0]. *)
Definition unload_invariant {Host Handle : Type} (bot0 : Bot Host Handle)
    (processed : list string) (acc : Outcomes) (bot : Bot Host Handle) : Prop :=
  loaded acc = [] /\ reloaded acc = []
  /\ (forall id, active id bot = true -> active id bot0 = true)
  /\ (forall id, ~ In id processed -> active id bot = active id bot0)
  /\ (forall id, In id processed ->
        failed_for id acc
        \/ active id bot = false /\ In (tick id) (unloaded acc))
  /\ (forall item, In item (failed acc) ->
        exists id e, In id processed /\ item = failed_item id e).

(** The invariant of the second loop, started with the lists [acc1] in the
    state [bot1]. *)
Definition load_invariant {Host Handle : Type} (acc1 : Outcomes)
    (bot1 : Bot Host Handle) (processed : list string) (acc : Outcomes)
    (bot : Bot Host Handle) : Prop :=
  unloaded acc = unloaded acc1
  /\ (forall id, failed_for id acc1 -> failed_for id acc)
  /\ (forall id, ~ In id processed -> active id bot = active id bot1)
  /\ (forall id, In id processed ->
        failed_for id acc
        \/ active id bot = true
           /\ (In (tick id) (loaded acc) \/ In (tick id) (reloaded acc)))
  /\ (forall item, In item (failed acc) ->
        In item (failed acc1)
        \/ exists id e, In id processed /\ item = failed_item id e)
  /\ (forall id, active id bot1 = true ->
        failed_for id acc
        \/ active id bot = true
           /\ (In (tick id) (loaded acc) -> In (tick id) (loaded acc1))
           /\ (In id processed -> In (tick id) (reloaded acc))).

(** The description of the embed a command replied, and the reloaded list
    of a pass; empty when the command raised. *)
Definition description_of (r : Result Embed) : string :=
  match r with
  | Ok embed => description embed
  | Raise _ => EmptyString
  end.

Definition reloaded_of (r : Result Outcomes) : list string :=
  match r with
  | Ok acc => reloaded acc
  | Raise _ => []
  end.

(** *** The exceptions behind the failed items *)

(** The item is the one a loop over [items] records for an exception:
    some [id] of [items] had its turn after the identifiers [before] it
    were processed, the transition of [id] raised [e] in the state the
    loop had reached then, and the item is formatted from [id] and the
    class name of [e]. *)
Definition raised_in_pass {S : Type} (step : string -> Outcomes -> M S Outcomes)
    (raises : string -> S -> Exn -> Prop) (acc0 : Outcomes) (s0 : S)
    (items : list string) (item : string) : Prop :=
  exists id e before after acc_k s_k,
    items = (before ++ id :: after)%list
    /\ for_each step before acc0 s0 = (Ok acc_k, s_k)
    /\ raises id s_k e
    /\ item = "`" ++ id ++ "`: `" ++ class_name (exn_kind e) ++ "`".

Section Raises.
Context {Host Handle : Type} {HMS : HostModuleSystem Host Handle}.

(** The transition of the first loop of [_reload_all] raises [e] in the
    state [bot]. *)
Definition unload_raises (extension : string) (bot : Bot Host Handle)
    (e : Exn) : Prop :=
  exists bot', unload_extension extension bot = (Raise e, bot').

(** The transition of the second loop of [_reload_all] raises [e] in the
    state [bot]. *)
Definition load_raises (extension : string) (bot : Bot Host Handle)
    (e : Exn) : Prop :=
  exists bot', reload_or_load_extension extension bot = (Raise e, bot').

End Raises.

(** ** A host and constants for the examples *)

(** A host whose state lists the extensions whose setup raises and the
    handles whose teardown raises; the handle of an extension is its name. *)
Record DemoHost : Type := mkDemoHost {
  broken_setup : list string;
  broken_teardown : list string
}.

#[export] Instance demo_hms : HostModuleSystem DemoHost string := {
  instantiate name h :=
    if PyStr.mem name (broken_setup h)
    then (inl ("setup of " ++ name ++ " raised"), h)
    else (inr name, h);
  teardown handle h :=
    if PyStr.mem handle (broken_teardown h)
    then (Some ("teardown of " ++ handle ++ " raised"), h)
    else (None, h)
}.

Definition demo_common : Common := mkCommon "[up]" "[down]" "[again]" "[x]" 0.

(** The bot with the given active extensions on a host with the given
    broken setups and teardowns. *)
Definition demo_bot (active setups teardowns : list string) : Bot DemoHost string :=
  mkBot (map (fun name => (name, name)) active) (mkDemoHost setups teardowns) [].

(** ** The other commands of [Admin] *)

(** More of Python's string and integer operations. *)
Module PyMore.

(** [s[n:]] for a non-negative [n] *)
Fixpoint drop (n : nat) (s : string) : string :=
  match n, s with
  | S k, String _ t => drop k t
  | _, _ => s
  end.

(** [s[start:stop]] for non-negative bounds *)
Definition slice (start stop : nat) (s : string) : string :=
  PyStr.take (stop - start) (drop start s).

(** [math.ceil(n / d)] for a positive [d].  Python divides in floating
    point; the quotient of a string length by 2000 is far below the range
    where that rounds to a different integer. *)
Definition ceil_div (n d : nat) : nat :=
  if Nat.eqb (n mod d) 0 then n / d else S (n / d).

(** [range(start, stop)] *)
Definition range (start stop : nat) : list nat := seq start (stop - start).

(** The binary digits of a positive integer, most significant first. *)
Fixpoint bits (p : positive) : string :=
  match p with
  | xH => "1"
  | xO q => bits q ++ "0"
  | xI q => bits q ++ "1"
  end.

(** [bin(z)] *)
Definition bin (z : Z) : string :=
  match z with
  | Z0 => "0b0"
  | Zpos p => "0b" ++ bits p
  | Zneg p => "-0b" ++ bits p
  end.

(** [str(z)] for an integer *)
Definition str_of_Z (z : Z) : string := NilZero.string_of_int (Z.to_int z).

End PyMore.

(** [for x in items: acc = step(x, acc)], for items of any type. *)
Fixpoint for_in {S A B : Type} (step : B -> A -> M S A)
    (items : list B) (acc : A) : M S A :=
  match items with
  | [] => ret acc
  | x :: rest => bind (step x acc) (for_in step rest)
  end.

(** *** [load] and [unload] *)

Section SingleCommands.
Context {Host Handle : Type} {HMS : HostModuleSystem Host Handle}.

(** The [load <extension>] command; the result is the text it replies. *)
Definition load (extension : string) : M (Bot Host Handle) string :=
  try_except_else
    (load_extension extension)
    (fun e =>
       ret ("**Failed loading `" ++ extension ++ "`!**" ++ nl
            ++ "```" ++ class_name (exn_kind e) ++ ": " ++ exn_msg e ++ "```"))
    (fun _ => ret ("**Successfully loaded `" ++ extension ++ "`!**")).

(** The [unload <extension>] command; the result is the text it replies. *)
Definition unload (extension : string) : M (Bot Host Handle) string :=
  try_except_else
    (unload_extension extension)
    (fun e =>
       ret ("**Failed unloading `" ++ extension ++ "`!**" ++ nl
            ++ "```" ++ class_name (exn_kind e) ++ ": " ++ exn_msg e ++ "```"))
    (fun _ => ret ("**Successfully unloaded `" ++ extension ++ "`!**")).

(** [Punchax.setup_hook] of bot.py *)
Definition setup_hook (fs : Filesystem) : M (Bot Host Handle) unit :=
  init_extensions fs.

End SingleCommands.

(** *** [create_txt_file] *)

(** The files the command writes: whether the directory [./log] exists,
    and the content of each file by its path. *)
Record Disk : Type := mkDisk {
  log_dir_exists : bool;
  file_content : string -> option string
}.

(** A [discord.File]: the name of the file it has open and the name it is
    sent under. *)
Record File : Type := mkFile { fp_name : string; file_filename : string }.

Definition no_such_file (path : string) : Exn :=
  mkExn FileNotFoundError ("[Errno 2] No such file or directory: '" ++ path ++ "'").

(** [with open(path, "w+") as file: file.write(text)] for a path in
    [./log]: the file is created or truncated. *)
Definition open_write (path text : string) : M Disk unit :=
  fun disk =>
    if log_dir_exists disk
    then (Ok tt,
          mkDisk true
            (fun p => if String.eqb p path then Some text else file_content disk p))
    else (Raise (no_such_file path), disk).

(** [with open(path, "a") as file: file.write(text)] for a path in
    [./log]: the text goes after what the file holds. *)
Definition open_append (path text : string) : M Disk unit :=
  fun disk =>
    if log_dir_exists disk
    then (Ok tt,
          mkDisk true
            (fun p =>
               if String.eqb p path
               then Some (match file_content disk path with
                          | Some old => old ++ text
                          | None => text
                          end)
               else file_content disk p))
    else (Raise (no_such_file path), disk).

(** [dt_fm] is the time stamp [dt.strftime("%y%m%d_%H%M%S")]; the clock of
    [utils/dt.py] is not among the sources. *)
Definition create_txt_file (dt_fm content : string) (large : bool) : M Disk File :=
  let filename := "content_" ++ dt_fm ++ ".txt" in
  let filepath := "./log/" ++ filename in
  (if large then
     let steps := 2000 in
     open_write filepath (PyStr.take 2000 content) ;;
     let loops := PyMore.ceil_div (String.length content) steps in
     for_in
       (fun i _ =>
          let start_index := i * steps in
          let sub_content := PyMore.slice start_index (start_index + 2000) content in
          open_append filepath sub_content)
       (PyMore.range 1 loops) tt
   else open_write filepath content) ;;
  ret (mkFile filepath filename).

(** *** [bin] *)

(** What the [bin] command does: it sends a text, or the shift raises
    [ValueError] (a negative count), or the shift raises because the
    count is too large for the interpreter ([MemoryError], or
    [OverflowError] for a count beyond the machine word). *)
Inductive BinOutcome : Type :=
| Sends (text : string)
| RaisesValueError (message : string)
| RaisesShiftTooLarge.

(** The [bin <dec> [bit]] command.  [str_period_insert] of
    [utils/common.py] is not among the sources and is a parameter;
    [max_shift] is the largest count for which the interpreter can carry
    out [1 << bit]. *)
Definition bin (str_period_insert : string -> string -> nat -> string)
    (max_shift : Z) (dec : Z) (bit : option Z) : BinOutcome :=
  match bit with
  | Some bit =>
      if Z.ltb bit 0 then RaisesValueError "negative shift count"
      else if Z.ltb max_shift bit then RaisesShiftTooLarge
      else
        let dec := Z.land dec (Z.shiftl 1 bit) in
        let bit := if Z.eqb dec 0 then 0%Z else 1%Z in
        Sends ("`" ++ PyMore.str_of_Z bit ++ "`")
  | None =>
      let binary := PyStr.replace "0b" "" (PyMore.bin dec) in
      let binary_fm := str_period_insert binary " " 4 in
      Sends ("```" ++ binary_fm ++ "```")
  end.

(** *** Further invariants of the loops of [_reload_all] *)

(** The first loop keeps one record per identifier processed, and what it
    recorded as unloaded is not active. *)
Definition unload_account {Host Handle : Type} (bot0 : Bot Host Handle)
    (processed : list string) (acc : Outcomes) (bot : Bot Host Handle) : Prop :=
  loaded acc = [] /\ reloaded acc = []
  /\ List.length (unloaded acc) + List.length (failed acc) = List.length processed
  /\ (forall id, active id bot = true -> active id bot0 = true)
  /\ (forall item, In item (unloaded acc) ->
        exists id, In id processed /\ item = tick id
                   /\ active id bot0 = true /\ active id bot = false).

(** The second loop keeps one record per identifier processed, records
    processed identifiers only, and activates processed identifiers only. *)
Definition load_account {Host Handle : Type} (acc1 : Outcomes)
    (bot1 : Bot Host Handle) (processed : list string) (acc : Outcomes)
    (bot : Bot Host Handle) : Prop :=
  unloaded acc = unloaded acc1
  /\ List.length (loaded acc) + List.length (reloaded acc) + List.length (failed acc)
     = List.length (loaded acc1) + List.length (reloaded acc1)
       + List.length (failed acc1) + List.length processed
  /\ (forall id, active id bot = true -> In id processed \/ active id bot1 = true)
  /\ (forall item, In item (loaded acc) ->
        In item (loaded acc1) \/ exists id, In id processed /\ item = tick id)
  /\ (forall item, In item (reloaded acc) ->
        In item (reloaded acc1) \/ exists id, In id processed /\ item = tick id).

(** * Properties *)

(** ** Strings *)

Module PyStrFacts.
Import PyStr.

Lemma append_nil_r (s : string) : s ++ "" = s.
Proof. induction s as [|a s IH]; simpl; [reflexivity | now rewrite IH]. Qed.

Lemma append_assoc (a b c : string) : (a ++ b) ++ c = a ++ (b ++ c).
Proof. induction a as [|x a IH]; simpl; [reflexivity | now rewrite IH]. Qed.

Lemma length_append (a b : string) :
  String.length (a ++ b) = String.length a + String.length b.
Proof. induction a as [|x a IH]; simpl; [reflexivity | now rewrite IH]. Qed.

Lemma append_inj_r (p a b : string) : p ++ a = p ++ b -> a = b.
Proof.
  induction p as [|x p IH]; simpl; intros H; [exact H|].
  injection H as H. now apply IH.
Qed.

Lemma append_inj_l (s a b : string) : a ++ s = b ++ s -> a = b.
Proof.
  revert b. induction a as [|x a IH]; intros [|y b] H; simpl in H.
  - reflexivity.
  - exfalso. apply (f_equal String.length) in H. simpl in H.
    rewrite length_append in H. lia.
  - exfalso. apply (f_equal String.length) in H. simpl in H.
    rewrite length_append in H. lia.
  - injection H as Hxy H. subst y. f_equal. now apply IH.
Qed.

Lemma take_append (p q : string) : take (String.length p) (p ++ q) = p.
Proof.
  induction p as [|x p IH]; simpl.
  - now destruct q.
  - now rewrite IH.
Qed.

Lemma slice_to_neg_append (p suffix : string) :
  slice_to_neg (String.length suffix) (p ++ suffix) = p.
Proof.
  unfold slice_to_neg. rewrite length_append.
  replace (String.length p + String.length suffix - String.length suffix)
    with (String.length p) by lia.
  apply take_append.
Qed.

Lemma endswith_cons (a : ascii) (s suffix : string) :
  endswith (String a s) suffix
  = if String.eqb (String a s) suffix then true else endswith s suffix.
Proof. reflexivity. Qed.

(** [endswith] is the suffix relation. *)
Lemma endswith_true (s suffix : string) :
  endswith s suffix = true <-> exists p, s = p ++ suffix.
Proof.
  split.
  - induction s as [|a s IH].
    + destruct suffix; [|discriminate]. intros _. now exists "".
    + rewrite endswith_cons.
      destruct (String.eqb_spec (String a s) suffix) as [<-|_].
      * intros _. now exists "".
      * intros H. destruct (IH H) as [p ->]. now exists (String a p).
  - intros [p ->]. induction p as [|a p IH].
    + simpl append. destruct suffix as [|b t]; [reflexivity|].
      rewrite endswith_cons. now rewrite String.eqb_refl.
    + simpl append. rewrite endswith_cons, IH. now destruct (String.eqb _ _).
Qed.

(** A name that ends with a suffix is its [s[:-n]] slice followed by the
    suffix. *)
Lemma endswith_slice (s suffix : string) :
  endswith s suffix = true ->
  s = slice_to_neg (String.length suffix) s ++ suffix.
Proof.
  intros H. apply endswith_true in H. destruct H as [p ->].
  now rewrite slice_to_neg_append.
Qed.

Lemma contains_append_l (needle p s : string) :
  contains needle s = true -> contains needle (p ++ s) = true.
Proof.
  intros H. induction p as [|a p IH]; simpl; [exact H|].
  rewrite IH. apply orb_true_r.
Qed.

Lemma mem_In (x : string) (items : list string) :
  mem x items = true <-> In x items.
Proof.
  unfold mem. rewrite existsb_exists. split.
  - intros [y [Hy Heq]]. apply String.eqb_eq in Heq. now subst.
  - intros H. exists x. split; [exact H | apply String.eqb_refl].
Qed.

Lemma mem_false (x : string) (items : list string) :
  mem x items = false <-> ~ In x items.
Proof.
  rewrite <- mem_In. destruct (mem x items); split; congruence.
Qed.

Lemma tick_inj (a b : string) : tick a = tick b -> a = b.
Proof.
  unfold tick. intros H. apply append_inj_r in H. now apply append_inj_l in H.
Qed.

End PyStrFacts.

Example endswith_py : PyStr.endswith "admin.py" ".py" = true.
Proof. reflexivity. Qed.

Example endswith_pyc : PyStr.endswith "admin.pyc" ".py" = false.
Proof. reflexivity. Qed.

Example contains_init : PyStr.contains "__init__" "x__init__y.py" = true.
Proof. reflexivity. Qed.

Example replace_dir :
  PyStr.replace "/" "." (PyStr.replace "./" "" "./cogs/minigames") = "cogs.minigames".
Proof. reflexivity. Qed.

Example replace_no_overlap : PyStr.replace "aa" "b" "aaa" = "ba".
Proof. reflexivity. Qed.

Example slice_admin : PyStr.slice_to_neg 3 "admin.py" = "admin".
Proof. reflexivity. Qed.

Example str_of_12 : PyStr.str_of_nat 12 = "12".
Proof. reflexivity. Qed.

Example demo_all :
  get_all_extensions demo_fs
  = Ok ["cogs.admin"; "cogs.!wip"; "cogs.error";
        "cogs.minigames.chess"; "cogs.minigames.old__init__x"].
Proof. reflexivity. Qed.

Example demo_allowed :
  get_allowed_extensions demo_fs
  = Ok ["cogs.admin"; "cogs.error"; "cogs.minigames.chess"].
Proof. reflexivity. Qed.

(** ** Discovery *)

Module DiscoveryFacts.
Import PyStr PyStrFacts.

(** Once the slashes of a configured directory are gone, doing the
    replacement again changes nothing. *)
Lemma dotted_configured (ext_dir : string) :
  In ext_dir EXTENSIONS_DIRS -> dotted (dotted ext_dir) = dotted ext_dir.
Proof.
  intros [<- | [<- | []]]; reflexivity.
Qed.

Lemma scan_filenames_In (keep : string -> bool) (ext_dir : string) :
  dotted (dotted ext_dir) = dotted ext_dir ->
  forall filenames current extensions id,
    current = ext_dir \/ current = dotted ext_dir ->
    In id (scan_filenames keep current filenames extensions) <->
    In id extensions \/
    exists filename,
      In filename filenames /\ keep filename = true
      /\ id = identifier ext_dir filename.
Proof.
  intros Hidem. induction filenames as [|f rest IH]; intros current extensions id Hcur.
  - simpl. split; [now left | intros [H | [f [[] _]]]; exact H].
  - assert (Hnext : dotted current = dotted ext_dir)
      by (destruct Hcur as [-> | ->]; [reflexivity | exact Hidem]).
    simpl. destruct (keep f) eqn:Hkeep.
    + rewrite IH by (right; exact Hnext). rewrite Hnext, in_app_iff. simpl.
      split.
      * intros [[H | [<- | []]] | [g [Hg [Hk ->]]]].
        -- now left.
        -- right. exists f. now repeat split; auto.
        -- right. exists g. now repeat split; auto.
      * intros [H | [g [[<- | Hg] [Hk ->]]]].
        -- now left; left.
        -- left; right; now left.
        -- right. now exists g.
    + rewrite IH by exact Hcur. split.
      * intros [H | [g [Hg [Hk ->]]]]; [now left|].
        right. exists g. now repeat split; auto.
      * intros [H | [g [[<- | Hg] [Hk ->]]]]; [now left | congruence |].
        right. now exists g.
Qed.

Lemma scan_dirs_In (keep : string -> bool) (fs : Filesystem) :
  forall dirs extensions result id,
    (forall d, In d dirs -> dotted (dotted d) = dotted d) ->
    scan_dirs keep fs dirs extensions = Ok result ->
    In id result <->
    In id extensions \/
    exists ext_dir filenames filename,
      In ext_dir dirs /\ fs ext_dir = Some filenames
      /\ In filename filenames /\ keep filename = true
      /\ id = identifier ext_dir filename.
Proof.
  induction dirs as [|d rest IH]; intros extensions result id Hidem Hscan.
  - simpl in Hscan. injection Hscan as <-.
    split; [now left | intros [H | [? [? [? [[] _]]]]]; exact H].
  - simpl in Hscan. unfold os_listdir in Hscan.
    destruct (fs d) as [filenames|] eqn:Hfs; [|discriminate].
    rewrite (IH _ _ id (fun x Hx => Hidem x (or_intror Hx)) Hscan).
    rewrite (scan_filenames_In keep d (Hidem d (or_introl eq_refl)))
      by (now left).
    split.
    + intros [[H | [f [Hf [Hk ->]]]] | [x [fl [f [Hx H]]]]].
      * now left.
      * right. exists d, filenames, f. simpl. now repeat split; auto.
      * right. exists x, fl, f. simpl. now split; auto.
    + intros [H | [x [fl [f [[<- | Hx] [Hfl [Hf [Hk ->]]]]]]]].
      * now left; left.
      * left; right. rewrite Hfs in Hfl. injection Hfl as <-. now exists f.
      * right. exists x, fl, f. now repeat split; auto.
Qed.

(** Whether discovery raises depends on the directories only, not on the
    test applied to the file names. *)
Lemma scan_dirs_total (keep : string -> bool) (fs : Filesystem) :
  forall dirs extensions,
    (forall d, In d dirs -> fs d <> None) ->
    exists result, scan_dirs keep fs dirs extensions = Ok result.
Proof.
  induction dirs as [|d rest IH]; intros extensions Hall; simpl.
  - now exists extensions.
  - unfold os_listdir. destruct (fs d) as [filenames|] eqn:Hfs.
    + apply IH. intros x Hx. apply Hall. now right.
    + exfalso. apply (Hall d); [now left | exact Hfs].
Qed.

Lemma scan_dirs_Ok_exist (keep : string -> bool) (fs : Filesystem) :
  forall dirs extensions result,
    scan_dirs keep fs dirs extensions = Ok result ->
    forall d, In d dirs -> fs d <> None.
Proof.
  induction dirs as [|d rest IH]; intros extensions result Hscan x Hx.
  - destruct Hx.
  - simpl in Hscan. unfold os_listdir in Hscan.
    destruct (fs d) as [filenames|] eqn:Hfs; [|discriminate].
    destruct Hx as [<- | Hx]; [congruence|].
    now apply (IH _ _ Hscan).
Qed.

Lemma scan_dirs_missing (keep : string -> bool) (fs : Filesystem) :
  forall dirs extensions d,
    In d dirs -> fs d = None ->
    exists e, scan_dirs keep fs dirs extensions = Raise e
              /\ exn_kind e = FileNotFoundError.
Proof.
  induction dirs as [|x rest IH]; intros extensions d Hd Hfs.
  - destruct Hd.
  - simpl. unfold os_listdir. destruct (fs x) as [filenames|] eqn:Hx.
    + destruct Hd as [-> | Hd]; [congruence|]. now apply (IH _ d).
    + eexists. split; reflexivity.
Qed.

(** What the filtered test accepts. *)
Lemma keep_allowed_true (filename : string) :
  keep_allowed filename = true <->
  endswith filename ".py" = true
  /\ forall ignore, In ignore IGNORED_EXTENSIONS -> contains ignore filename = false.
Proof.
  unfold keep_allowed. rewrite andb_true_iff, negb_true_iff. split.
  - intros [He Hx]. split; [exact He|]. intros ignore Hin.
    destruct (contains ignore filename) eqn:Hc; [|reflexivity].
    assert (existsb (fun ignore => contains ignore filename) IGNORED_EXTENSIONS = true)
      by (apply existsb_exists; now exists ignore).
    congruence.
  - intros [He Hall]. split; [exact He|].
    destruct (existsb _ IGNORED_EXTENSIONS) eqn:Hx; [|reflexivity].
    apply existsb_exists in Hx. destruct Hx as [ignore [Hin Hc]].
    rewrite (Hall ignore Hin) in Hc. discriminate.
Qed.

(** Every file name with [__init__] in it is refused by the filtered test;
    in particular [__init__.py], the one name the unfiltered test refuses. *)
Lemma keep_allowed_init (filename : string) :
  contains "__init__" filename = true -> keep_allowed filename = false.
Proof.
  intros Hc. destruct (keep_allowed filename) eqn:Hk; [|reflexivity].
  apply keep_allowed_true in Hk. destruct Hk as [_ Hall].
  rewrite (Hall "__init__") in Hc; [discriminate | right; now left].
Qed.

Lemma keep_allowed_keep_all (filename : string) :
  keep_allowed filename = true -> keep_all filename = true.
Proof.
  intros Hk. unfold keep_all.
  destruct (proj1 (keep_allowed_true filename) Hk) as [He _]. rewrite He. simpl.
  destruct (String.eqb_spec filename "__init__.py") as [-> | _]; [|reflexivity].
  discriminate Hk.
Qed.

End DiscoveryFacts.

Section DiscoveryClaims.
Import PyStr PyStrFacts DiscoveryFacts.

(** Two files of the configured directories with the same identifier: the
    one passes the ignore rule exactly when the other does. *)
Lemma identifier_collision (d1 d2 f1 f2 : string) :
  In d1 EXTENSIONS_DIRS -> In d2 EXTENSIONS_DIRS ->
  endswith f1 ".py" = true -> endswith f2 ".py" = true ->
  identifier d1 f1 = identifier d2 f2 ->
  forall ignore, In ignore IGNORED_EXTENSIONS ->
    contains ignore f1 = contains ignore f2.
Proof.
  intros H1 H2 He1 He2 Hid ignore Hig.
  apply endswith_slice in He1, He2. simpl String.length in He1, He2.
  unfold identifier in Hid.
  destruct H1 as [<- | [<- | []]]; destruct H2 as [<- | [<- | []]].
  - change (dotted "./cogs") with "cogs" in Hid.
    apply append_inj_r, append_inj_r in Hid. congruence.
  - change (dotted "./cogs") with "cogs" in Hid.
    change (dotted "./cogs/minigames" ++ "." ++ slice_to_neg 3 f2)
      with ("cogs" ++ "." ++ "minigames." ++ slice_to_neg 3 f2) in Hid.
    apply append_inj_r, append_inj_r in Hid.
    assert (Hf : f1 = "minigames." ++ f2)
      by (rewrite He1, He2, Hid, <- append_assoc; f_equal;
          now rewrite <- He2).
    rewrite Hf. destruct Hig as [<- | [<- | []]]; reflexivity.
  - change (dotted "./cogs") with "cogs" in Hid.
    change (dotted "./cogs/minigames" ++ "." ++ slice_to_neg 3 f1)
      with ("cogs" ++ "." ++ "minigames." ++ slice_to_neg 3 f1) in Hid.
    apply append_inj_r, append_inj_r in Hid.
    assert (Hf : f2 = "minigames." ++ f1)
      by (rewrite He2, He1, <- Hid, <- append_assoc; f_equal;
          now rewrite <- He1).
    rewrite Hf. destruct Hig as [<- | [<- | []]]; reflexivity.
  - change (dotted "./cogs/minigames") with "cogs.minigames" in Hid.
    apply append_inj_r, append_inj_r in Hid. congruence.
Qed.

(** C9: for the same directory contents, every identifier the filtered
    discovery returns is also returned by the unfiltered discovery: the
    filter refuses every file name that contains [__init__], while the
    unfiltered variant refuses the one name [__init__.py] only. *)
Theorem filtered_subset_of_unfiltered (fs : Filesystem) (allowed : list string) :
  get_allowed_extensions fs = Ok allowed ->
  (exists all,
      get_all_extensions fs = Ok all
      /\ forall id, In id allowed -> In id all)
  /\ (forall filename,
        contains "__init__" filename = true -> keep_allowed filename = false)
  /\ (forall filename,
        endswith filename ".py" = true ->
        (keep_all filename = false <-> filename = "__init__.py")).
Proof.
  intros Hallowed. unfold get_allowed_extensions, get_all_extensions in *.
  repeat split.
  - destruct (scan_dirs_total keep_all fs EXTENSIONS_DIRS [])
      as [all Hall]; [exact (scan_dirs_Ok_exist _ _ _ _ _ Hallowed)|].
    exists all. split; [exact Hall|]. intros id Hid.
    apply (scan_dirs_In _ _ _ _ _ id dotted_configured Hallowed) in Hid.
    apply (scan_dirs_In _ _ _ _ _ id dotted_configured Hall).
    destruct Hid as [[] | [d [fl [f [Hd [Hfl [Hf [Hk ->]]]]]]]].
    right. exists d, fl, f. repeat split; auto.
    now apply keep_allowed_keep_all.
  - exact keep_allowed_init.
  - unfold keep_all. rewrite H. simpl.
    destruct (String.eqb_spec filename "__init__.py"); [auto | discriminate].
  - intros ->. reflexivity.
Qed.

(** C5, as the code has it: for every candidate file (recognized suffix)
    of a configured directory, its identifier is in the filtered discovery
    output if and only if its file name contains none of the ignore
    substrings; and its identifier is in the unfiltered discovery output,
    whatever the ignore substrings, provided the file is not named
    [__init__.py], which the unfiltered variant leaves out. *)
Theorem filter_correctness (fs : Filesystem) (ext_dir filename : string)
    (filenames allowed all : list string) :
  In ext_dir EXTENSIONS_DIRS ->
  fs ext_dir = Some filenames ->
  In filename filenames ->
  endswith filename ".py" = true ->
  get_allowed_extensions fs = Ok allowed ->
  get_all_extensions fs = Ok all ->
  (In (identifier ext_dir filename) allowed <->
   forall ignore, In ignore IGNORED_EXTENSIONS -> contains ignore filename = false)
  /\ (filename <> "__init__.py" -> In (identifier ext_dir filename) all).
Proof.
  intros Hd Hfs Hf He Hallowed Hall.
  unfold get_allowed_extensions, get_all_extensions in *. split; [split|].
  - intros Hin ignore Hig.
    apply (scan_dirs_In _ _ _ _ _ _ dotted_configured Hallowed) in Hin.
    destruct Hin as [[] | [d' [fl' [f' [Hd' [_ [_ [Hk Hid]]]]]]]].
    apply keep_allowed_true in Hk. destruct Hk as [He' Hnone].
    rewrite (identifier_collision _ _ _ _ Hd Hd' He He' Hid ignore Hig).
    now apply Hnone.
  - intros Hnone.
    apply (scan_dirs_In _ _ _ _ _ _ dotted_configured Hallowed).
    right. exists ext_dir, filenames, filename. repeat split; auto.
    apply keep_allowed_true. now split.
  - intros Hne.
    apply (scan_dirs_In _ _ _ _ _ _ dotted_configured Hall).
    right. exists ext_dir, filenames, filename. repeat split; auto.
    unfold keep_all. rewrite He. simpl.
    now destruct (String.eqb_spec filename "__init__.py").
Qed.

End DiscoveryClaims.

(** ** The mapping of active extensions *)

Section RegistryFacts.
Context {Handle : Type}.
Implicit Types (exts : list (string * Handle)) (name id : string).

Lemma is_loaded_keys id exts : is_loaded id exts = true <-> In id (keys exts).
Proof.
  unfold is_loaded, keys. rewrite existsb_exists, in_map_iff. split.
  - intros [kv [Hin Heq]]. apply String.eqb_eq in Heq. now exists kv.
  - intros [kv [Heq Hin]]. exists kv. split; [exact Hin|].
    now apply String.eqb_eq.
Qed.

Lemma is_loaded_dict_set name id (handle : Handle) exts :
  is_loaded id (dict_set name handle exts)
  = String.eqb name id || is_loaded id exts.
Proof.
  induction exts as [|[k v] rest IH]; simpl.
  - reflexivity.
  - destruct (String.eqb_spec k name) as [-> | Hk]; simpl.
    + now destruct (String.eqb name id).
    + rewrite IH. now destruct (String.eqb k id), (String.eqb name id).
Qed.

Lemma is_loaded_dict_pop name id exts :
  is_loaded id (dict_pop name exts)
  = negb (String.eqb name id) && is_loaded id exts.
Proof.
  induction exts as [|[k v] rest IH]; simpl.
  - now rewrite andb_false_r.
  - destruct (String.eqb_spec k name) as [-> | Hk]; simpl.
    + rewrite IH. now destruct (String.eqb name id).
    + rewrite IH. destruct (String.eqb_spec k id) as [-> | Hid]; simpl.
      * destruct (String.eqb_spec name id); [congruence | reflexivity].
      * reflexivity.
Qed.

Lemma dict_get_is_loaded name exts :
  is_loaded name exts = true <-> exists handle, dict_get name exts = Some handle.
Proof.
  induction exts as [|[k v] rest IH]; simpl.
  - split; [discriminate | intros [h Hh]; discriminate].
  - destruct (String.eqb k name); simpl; [|exact IH].
    split; [now exists v | reflexivity].
Qed.

Lemma dict_get_None name exts :
  dict_get name exts = None -> is_loaded name exts = false.
Proof.
  intros Hget. destruct (is_loaded name exts) eqn:Hl; [|reflexivity].
  apply dict_get_is_loaded in Hl. destruct Hl as [h Hh]. congruence.
Qed.

(** The unload set is the snapshot of the active identifiers without the
    available ones. *)
Lemma future_unload_In id exts (available_extensions : list string) :
  In id (future_unload exts available_extensions) <->
  In id (keys exts) /\ ~ In id available_extensions.
Proof.
  unfold future_unload. rewrite filter_In, negb_true_iff, PyStrFacts.mem_false.
  reflexivity.
Qed.

End RegistryFacts.

(** ** The lifecycle operations *)

Section LifecycleFacts.
Context {Host Handle : Type} {HMS : HostModuleSystem Host Handle}.
Implicit Types (bot : Bot Host Handle) (name id extension : string) (acc : Outcomes).

(** What [load_extension] does to the set of active extensions. *)
Lemma load_extension_spec name bot :
  match load_extension name bot with
  | (Ok _, bot') =>
      active name bot = false
      /\ forall id, active id bot' = String.eqb name id || active id bot
  | (Raise e, bot') =>
      extensions bot' = extensions bot
      /\ (exn_kind e = ExtensionAlreadyLoaded <-> active name bot = true)
  end.
Proof.
  unfold load_extension, active.
  destruct (is_loaded name (extensions bot)) eqn:Hl.
  - simpl. repeat split; auto.
  - destruct (instantiate name (host bot)) as [[msg | handle] host']; simpl.
    + repeat split; intros; discriminate.
    + split; [reflexivity|]. intros id. apply is_loaded_dict_set.
Qed.

(** What [unload_extension] does to the set of active extensions. *)
Lemma unload_extension_spec name bot :
  match unload_extension name bot with
  | (Ok _, bot') =>
      active name bot = true
      /\ forall id, active id bot' = negb (String.eqb name id) && active id bot
  | (Raise e, bot') =>
      extensions bot' = extensions bot
      /\ exn_kind e <> ExtensionAlreadyLoaded
  end.
Proof.
  unfold unload_extension, active.
  destruct (dict_get name (extensions bot)) as [handle|] eqn:Hget.
  - destruct (teardown handle (host bot)) as [[msg|] host']; simpl.
    + split; [reflexivity | discriminate].
    + split; [|intros id; apply is_loaded_dict_pop].
      apply dict_get_is_loaded. now exists handle.
  - simpl. split; [reflexivity | discriminate].
Qed.

(** What [reload_extension] does to the set of active extensions. *)
Lemma reload_extension_spec name bot :
  match reload_extension name bot with
  | (Ok _, bot') =>
      active name bot = true
      /\ forall id, active id bot' = active id bot
  | (Raise e, bot') =>
      (forall id, id <> name -> active id bot' = active id bot)
      /\ exn_kind e <> ExtensionAlreadyLoaded
  end.
Proof.
  unfold reload_extension, bind.
  pose proof (unload_extension_spec name bot) as Hu.
  destruct (unload_extension name bot) as [[[]|e] bot1].
  - destruct Hu as [Hact Hu].
    pose proof (load_extension_spec name bot1) as Hl.
    destruct (load_extension name bot1) as [[[]|e] bot2].
    + destruct Hl as [_ Hl]. split; [exact Hact|]. intros id.
      rewrite Hl, Hu. destruct (String.eqb_spec name id) as [<- | _]; simpl; auto.
    + destruct Hl as [Hext Hkind]. split.
      * intros id Hne. unfold active in *. rewrite Hext, Hu.
        destruct (String.eqb_spec name id); [congruence | reflexivity].
      * intros Hk. apply Hkind in Hk. rewrite Hu, String.eqb_refl in Hk.
        discriminate.
  - destruct Hu as [Hext Hkind]. split; [|exact Hkind].
    intros id _. unfold active. now rewrite Hext.
Qed.

(** What [reload_or_load_extension] answers and does to the set of active
    extensions. *)
Lemma reload_or_load_extension_spec name bot :
  match reload_or_load_extension name bot with
  | (Ok ext_state, bot') =>
      (forall id, active id bot' = String.eqb name id || active id bot)
      /\ (ext_state = _ExtensionState.loaded /\ active name bot = false
          \/ ext_state = _ExtensionState.reloaded /\ active name bot = true)
  | (Raise e, bot') =>
      forall id, id <> name -> active id bot' = active id bot
  end.
Proof.
  unfold reload_or_load_extension, try_except, try_except_else, bind.
  pose proof (load_extension_spec name bot) as Hl.
  destruct (load_extension name bot) as [[[]|e] bot1].
  - simpl. destruct Hl as [Hinact Hl]. split; [exact Hl | now left].
  - destruct Hl as [Hext Hkind].
    assert (Hsame : forall id, active id bot1 = active id bot)
      by (intros id; unfold active; now rewrite Hext).
    destruct (exn_kind e) eqn:Hk; simpl;
      try (intros id _; apply Hsame).
    assert (Hact : active name bot = true) by now apply Hkind.
    pose proof (reload_extension_spec name bot1) as Hr.
    destruct (reload_extension name bot1) as [[[]|e'] bot2]; simpl.
    + destruct Hr as [_ Hr]. split; [|now right].
      intros id. rewrite Hr, Hsame.
      destruct (String.eqb_spec name id) as [<- | _]; simpl; auto.
    + destruct Hr as [Hr _]. intros id Hne. now rewrite Hr, Hsame.
Qed.

End LifecycleFacts.

(** ** The loops of [_reload_all] *)

Section LoopFacts.
Context {Host Handle : Type} {HMS : HostModuleSystem Host Handle}.
Implicit Types (bot : Bot Host Handle) (name id extension : string) (acc : Outcomes).

(** A loop whose body never raises does not raise, and an invariant of the
    body, stated over the items already processed, holds at its end. *)
Lemma for_each_invariant {S A : Type} (step : string -> A -> M S A)
    (Inv : list string -> A -> S -> Prop) :
  (forall processed x a s,
      Inv processed a s ->
      exists a' s', step x a s = (Ok a', s') /\ Inv (processed ++ [x])%list a' s') ->
  forall items processed a s,
    Inv processed a s ->
    exists a' s',
      for_each step items a s = (Ok a', s') /\ Inv (processed ++ items)%list a' s'.
Proof.
  intros Hstep. induction items as [|x rest IH]; intros processed a s Hinv.
  - exists a, s. rewrite app_nil_r. now split.
  - destruct (Hstep processed x a s Hinv) as [a1 [s1 [Hrun Hinv1]]].
    destruct (IH _ _ _ Hinv1) as [a' [s' [Hrest Hinv']]].
    exists a', s'. simpl. unfold bind. rewrite Hrun.
    rewrite <- app_assoc in Hinv'. now split.
Qed.

(** One turn of the first loop: the extension is unloaded and recorded as
    such, or the exception of the unload is recorded and nothing changes. *)
Lemma unload_step_spec extension acc bot :
  exists acc' bot',
    unload_step extension acc bot = (Ok acc', bot')
    /\ loaded acc' = loaded acc /\ reloaded acc' = reloaded acc
    /\ (unloaded acc' = (unloaded acc ++ [tick extension])%list
        /\ failed acc' = failed acc
        /\ (forall id, active id bot'
                       = negb (String.eqb extension id) && active id bot)
        \/ exists e,
            unload_extension extension bot = (Raise e, bot')
            /\ unloaded acc' = unloaded acc
            /\ failed acc' = (failed acc ++ [failed_item extension e])%list
            /\ forall id, active id bot' = active id bot).
Proof.
  unfold unload_step, try_except, try_except_else, bind.
  pose proof (unload_extension_spec extension bot) as Hu.
  destruct (unload_extension extension bot) as [[[]|e] bot1]; simpl.
  - destruct Hu as [_ Hu]. do 2 eexists. split; [reflexivity|]. simpl.
    repeat split. left. repeat split. exact Hu.
  - destruct Hu as [Hext _]. do 2 eexists. split; [reflexivity|]. simpl.
    repeat split. right. exists e. repeat split.
    intros id. unfold active. now rewrite Hext.
Qed.

(** One turn of the second loop: the extension is loaded, or reloaded, and
    recorded as such, or the exception is recorded and no other extension
    changes. *)
Lemma load_step_spec extension acc bot :
  exists acc' bot',
    load_step extension acc bot = (Ok acc', bot')
    /\ unloaded acc' = unloaded acc
    /\ (loaded acc' = (loaded acc ++ [tick extension])%list
        /\ reloaded acc' = reloaded acc /\ failed acc' = failed acc
        /\ active extension bot = false
        /\ (forall id, active id bot' = String.eqb extension id || active id bot)
        \/ loaded acc' = loaded acc
           /\ reloaded acc' = (reloaded acc ++ [tick extension])%list
           /\ failed acc' = failed acc
           /\ active extension bot = true
           /\ (forall id, active id bot' = active id bot)
        \/ exists e,
            reload_or_load_extension extension bot = (Raise e, bot')
            /\ loaded acc' = loaded acc /\ reloaded acc' = reloaded acc
            /\ failed acc' = (failed acc ++ [failed_item extension e])%list
            /\ forall id, id <> extension -> active id bot' = active id bot).
Proof.
  unfold load_step, try_except_else.
  pose proof (reload_or_load_extension_spec extension bot) as Hs.
  destruct (reload_or_load_extension extension bot) as [[st|e] bot1].
  - destruct Hs as [Hact [[-> Hwas] | [-> Hwas]]]; simpl;
      do 2 eexists; (split; [reflexivity|]); simpl; (split; [reflexivity|]).
    + left. repeat split; auto.
    + right; left. repeat split; auto. intros id. rewrite Hact.
      destruct (String.eqb_spec extension id) as [<- | _]; simpl; auto.
  - simpl. do 2 eexists. split; [reflexivity|]. simpl. split; [reflexivity|].
    right; right. exists e. repeat split; auto.
Qed.

Lemma failed_for_grows id acc acc' item :
  failed acc' = (failed acc ++ [item])%list -> failed_for id acc -> failed_for id acc'.
Proof.
  intros Hf [e He]. exists e. rewrite Hf. apply in_or_app. now left.
Qed.

Lemma failed_for_same id acc acc' :
  failed acc' = failed acc -> failed_for id acc -> failed_for id acc'.
Proof. intros Hf [e He]. exists e. now rewrite Hf. Qed.

Lemma failed_for_new id acc acc' e :
  failed acc' = (failed acc ++ [failed_item id e])%list -> failed_for id acc'.
Proof.
  intros Hf. exists e. rewrite Hf. apply in_or_app. right. now left.
Qed.

Lemma unload_invariant_step bot0 processed extension acc bot :
  unload_invariant bot0 processed acc bot ->
  exists acc' bot',
    unload_step extension acc bot = (Ok acc', bot')
    /\ unload_invariant bot0 (processed ++ [extension]) acc' bot'.
Proof.
  intros (Hlo & Hre & Hmono & Hrest & Hdone & Hitems).
  destruct (unload_step_spec extension acc bot)
    as (acc' & bot' & Hrun & Hlo' & Hre' & Hcase).
  exists acc', bot'. split; [exact Hrun|].
  unfold unload_invariant. rewrite Hlo', Hre'. do 2 (split; [assumption|]).
  destruct Hcase as [(Hun & Hfa & Hact) | (e & _ & Hun & Hfa & Hact)].
  - repeat split.
    + intros id. rewrite Hact. intros H. apply andb_true_iff in H. now apply Hmono.
    + intros id Hnot. rewrite Hact, Hrest.
      * destruct (String.eqb_spec extension id) as [-> | _]; [|reflexivity].
        exfalso. apply Hnot, in_or_app. right. now left.
      * intros Hin. apply Hnot, in_or_app. now left.
    + intros id Hin. apply in_app_or in Hin.
      destruct (String.eqb_spec extension id) as [-> | Hne].
      * right. split; [|rewrite Hun; apply in_or_app; right; now left].
        now rewrite Hact, String.eqb_refl.
      * destruct Hin as [Hin | [-> | []]]; [|congruence].
        destruct (Hdone id Hin) as [Hf | [Hina Hti]].
        -- left. now apply (failed_for_same id acc).
        -- right. split; [|rewrite Hun; apply in_or_app; now left].
           rewrite Hact, Hina. apply andb_false_r.
    + intros item Hin. rewrite Hfa in Hin.
      destruct (Hitems item Hin) as (id & e & Hid & ->).
      exists id, e. split; [apply in_or_app; now left | reflexivity].
  - repeat split.
    + intros id. rewrite Hact. apply Hmono.
    + intros id Hnot. rewrite Hact. apply Hrest.
      intros Hin. apply Hnot, in_or_app. now left.
    + intros id Hin. apply in_app_or in Hin.
      destruct Hin as [Hin | [<- | []]].
      * destruct (Hdone id Hin) as [Hf | [Hina Hti]].
        -- left. now apply (failed_for_grows id acc acc' _ Hfa).
        -- right. rewrite Hact, Hun. now split.
      * left. now apply (failed_for_new extension acc acc' e).
    + intros item Hin. rewrite Hfa in Hin. apply in_app_or in Hin.
      destruct Hin as [Hin | [<- | []]].
      * destruct (Hitems item Hin) as (id & e' & Hid & ->).
        exists id, e'. split; [apply in_or_app; now left | reflexivity].
      * exists extension, e. split; [apply in_or_app; right; now left | reflexivity].
Qed.

Lemma load_invariant_step acc1 bot1 processed extension acc bot :
  load_invariant acc1 bot1 processed acc bot ->
  exists acc' bot',
    load_step extension acc bot = (Ok acc', bot')
    /\ load_invariant acc1 bot1 (processed ++ [extension]) acc' bot'.
Proof.
  intros (Hun & Hkeep & Hrest & Hdone & Hitems & Hwas).
  destruct (load_step_spec extension acc bot)
    as (acc' & bot' & Hrun & Hun' & Hcase).
  exists acc', bot'. split; [exact Hrun|].
  unfold load_invariant. rewrite Hun'. split; [assumption|].
  assert (Hgrow : forall id, failed_for id acc -> failed_for id acc').
  { intros id Hf.
    destruct Hcase as [(_ & _ & Hfa & _) | [(_ & _ & Hfa & _) | (e & _ & _ & _ & Hfa & _)]].
    - now apply (failed_for_same id acc).
    - now apply (failed_for_same id acc).
    - now apply (failed_for_grows id acc acc' _ Hfa). }
  split; [intros id Hf; auto|].
  assert (Hother : forall id, id <> extension -> active id bot' = active id bot).
  { intros id Hne.
    destruct Hcase as [(_ & _ & _ & _ & Hact) | [(_ & _ & _ & _ & Hact) | (e & _ & _ & _ & _ & Hact)]].
    - rewrite Hact. destruct (String.eqb_spec extension id); [congruence | reflexivity].
    - apply Hact.
    - now apply Hact. }
  assert (Hlo : forall item, In item (loaded acc) -> In item (loaded acc')).
  { intros item Hin.
    destruct Hcase as [(Hl & _) | [(Hl & _) | (e & _ & Hl & _)]]; rewrite Hl; auto.
    apply in_or_app. now left. }
  assert (Hre : forall item, In item (reloaded acc) -> In item (reloaded acc')).
  { intros item Hin.
    destruct Hcase as [(_ & Hr & _) | [(_ & Hr & _) | (e & _ & _ & Hr & _)]]; rewrite Hr; auto.
    apply in_or_app. now left. }
  assert (Hthis : failed_for extension acc'
                  \/ active extension bot' = true
                     /\ (In (tick extension) (loaded acc')
                         \/ In (tick extension) (reloaded acc'))).
  { destruct Hcase as [(Hl & _ & _ & _ & Hact) | [(_ & Hr & _ & Hison & Hact) | (e & _ & _ & _ & Hfa & _)]].
    - right. rewrite Hact, String.eqb_refl. split; [reflexivity|].
      left. rewrite Hl. apply in_or_app. right. now left.
    - right. rewrite Hact. split; [exact Hison|].
      right. rewrite Hr. apply in_or_app. right. now left.
    - left. now apply (failed_for_new extension acc acc' e). }
  repeat split.
  - intros id Hnot. rewrite Hother, Hrest; auto.
    + intros Hin. apply Hnot, in_or_app. now left.
    + intros ->. apply Hnot, in_or_app. right. now left.
  - intros id Hin.
    destruct (string_dec id extension) as [-> | Hne]; [exact Hthis|].
    apply in_app_or in Hin. destruct Hin as [Hin | [<- | []]]; [|congruence].
    destruct (Hdone id Hin) as [Hf | [Hact [Hi | Hi]]]; auto.
    + right. rewrite Hother by exact Hne. auto.
    + right. rewrite Hother by exact Hne. auto.
  - intros item Hin.
    assert (Hfrom : In item (failed acc)
                    \/ exists e, item = failed_item extension e).
    { destruct Hcase as [(_ & _ & Hfa & _) | [(_ & _ & Hfa & _) | (e & _ & _ & _ & Hfa & _)]];
        rewrite Hfa in Hin; auto.
      apply in_app_or in Hin. destruct Hin as [Hin | [<- | []]]; auto.
      right. now exists e. }
    destruct Hfrom as [Hold | [e ->]].
    + destruct (Hitems item Hold) as [H1 | (id & e & Hid & ->)]; auto.
      right. exists id, e. split; [apply in_or_app; now left | reflexivity].
    + right. exists extension, e. split; [apply in_or_app; right; now left | reflexivity].
  - intros id Hon.
    destruct (Hwas id Hon) as [Hf | (Hact & Hnotlo & Hinre)]; [left; auto|].
    destruct (string_dec id extension) as [-> | Hne].
    + destruct Hcase as [(_ & _ & _ & Hoff & _) | [(Hl & Hr & _ & _ & Hact') | (e & _ & _ & _ & Hfa & _)]].
      * congruence.
      * right. rewrite Hact'. split; [exact Hact|]. split.
        -- rewrite Hl. exact Hnotlo.
        -- intros _. rewrite Hr. apply in_or_app. right. now left.
      * left. now apply (failed_for_new extension acc acc' e).
    + right. rewrite Hother by exact Hne. split; [exact Hact|]. split.
      * intros Hin. apply Hnotlo.
        destruct Hcase as [(Hl & _) | [(Hl & _) | (e & _ & Hl & _)]];
          rewrite Hl in Hin; auto.
        apply in_app_or in Hin. destruct Hin as [Hin | [Heq | []]]; auto.
        apply PyStrFacts.tick_inj in Heq. congruence.
      * intros Hin. apply Hre, Hinre. apply in_app_or in Hin.
        destruct Hin as [Hin | [<- | []]]; [exact Hin | congruence].
Qed.

End LoopFacts.

(** ** The pass of [_reload_all] *)

Section ReconcileFacts.
Context {Host Handle : Type} {HMS : HostModuleSystem Host Handle}.
Implicit Types (bot : Bot Host Handle) (name id extension : string) (acc : Outcomes).

(** The first loop as a whole. *)
Lemma unload_loop_spec bot0 (items : list string) :
  exists acc' bot',
    for_each unload_step items (mkOutcomes [] [] [] []) bot0 = (Ok acc', bot')
    /\ unload_invariant bot0 items acc' bot'.
Proof.
  apply (for_each_invariant unload_step (unload_invariant bot0)
           (fun processed x a s => unload_invariant_step bot0 processed x a s)
           items [] (mkOutcomes [] [] [] []) bot0).
  unfold unload_invariant. simpl. repeat split; auto; intros ? [].
Qed.

(** The second loop as a whole. *)
Lemma load_loop_spec acc1 bot1 (items : list string) :
  exists acc' bot',
    for_each load_step items acc1 bot1 = (Ok acc', bot')
    /\ load_invariant acc1 bot1 items acc' bot'.
Proof.
  apply (for_each_invariant load_step (load_invariant acc1 bot1)
           (fun processed x a s => load_invariant_step acc1 bot1 processed x a s)
           items [] acc1 bot1).
  unfold load_invariant. simpl.
  split; [reflexivity|]. split; [auto|]. split; [auto|].
  split; [intros ? []|]. split; [auto|].
  intros id Hact. right. split; [exact Hact|]. split; [auto | intros []].
Qed.

(** The pass never raises; what it leaves behind, identifier by
    identifier. *)
Lemma reconcile_spec (desired : list string) bot :
  exists acc bot',
    reconcile desired bot = (Ok acc, bot')
    /\ (forall id,
          failed_for id acc \/ (active id bot' = true <-> In id desired))
    /\ (forall id, In id (future_unload (extensions bot) desired) ->
          In (tick id) (unloaded acc) \/ failed_for id acc)
    /\ (forall id, In id desired ->
          In (tick id) (loaded acc) \/ In (tick id) (reloaded acc)
          \/ failed_for id acc)
    /\ (forall item, In item (failed acc) ->
          exists id e,
            (In id (future_unload (extensions bot) desired) \/ In id desired)
            /\ item = failed_item id e)
    /\ (forall id, active id bot = true -> In id desired ->
          failed_for id acc
          \/ In (tick id) (reloaded acc) /\ ~ In (tick id) (loaded acc)).
Proof.
  unfold reconcile, bind, get. simpl.
  set (future := future_unload (extensions bot) desired).
  destruct (unload_loop_spec bot future)
    as (acc1 & bot1 & Hrun1 & Hlo1 & Hre1 & Hmono & Hrest1 & Hdone1 & Hitems1).
  rewrite Hrun1.
  destruct (load_loop_spec acc1 bot1 desired)
    as (acc & bot' & Hrun2 & Hun2 & Hkeep & Hrest2 & Hdone2 & Hitems2 & Hwas).
  exists acc, bot'. split; [exact Hrun2|]. repeat split.
  - intros id. destruct (in_dec string_dec id desired) as [Hin | Hout].
    + destruct (Hdone2 id Hin) as [Hf | [Hact _]]; [now left|].
      right. split; auto.
    + rewrite (Hrest2 id Hout).
      destruct (in_dec string_dec id future) as [Hfut | Hnot].
      * destruct (Hdone1 id Hfut) as [Hf | [Hoff _]]; [left; auto|].
        right. rewrite Hoff. split; [discriminate | contradiction].
      * right. rewrite (Hrest1 id Hnot). split; [|contradiction].
        intros Hact. exfalso. apply Hnot. apply future_unload_In.
        split; [now apply is_loaded_keys | exact Hout].
  - intros id Hfut. destruct (Hdone1 id Hfut) as [Hf | [_ Hti]].
    + right. auto.
    + left. now rewrite Hun2.
  - intros id Hin. destruct (Hdone2 id Hin) as [Hf | [_ [Hl | Hr]]]; auto.
  - intros item Hin. destruct (Hitems2 item Hin) as [Hold | (id & e & Hid & ->)].
    + destruct (Hitems1 item Hold) as (id & e & Hid & ->).
      exists id, e. split; [now left | reflexivity].
    + exists id, e. split; [now right | reflexivity].
  - intros id Hact Hin.
    assert (Hnot : ~ In id future).
    { intros Hfut. apply future_unload_In in Hfut. now destruct Hfut. }
    assert (Hact1 : active id bot1 = true) by now rewrite (Hrest1 id Hnot).
    destruct (Hwas id Hact1) as [Hf | (_ & Hnolo & Hinre)]; [now left|].
    right. split; [now apply Hinre|].
    intros Hl. apply Hnolo in Hl. rewrite Hlo1 in Hl. destruct Hl.
Qed.

End ReconcileFacts.

(** ** The exceptions behind the failed items *)

Section RecordedFailures.
Context {S : Type}.
Variable step : string -> Outcomes -> M S Outcomes.
Variable raises : string -> S -> Exn -> Prop.

(** A step never raises; it leaves the failed list alone when the
    transition raises nothing, and appends the item of the one exception
    the transition raises otherwise. *)
Hypothesis step_records :
  forall x acc s,
    exists acc' s',
      step x acc s = (Ok acc', s')
      /\ (failed acc' = failed acc /\ (forall e, ~ raises x s e)
          \/ exists e,
               raises x s e /\ (forall e', raises x s e' -> e' = e)
               /\ failed acc' = (failed acc ++ [failed_item x e])%list).

Lemma for_each_snoc (items : list string) (x : string) (acc0 : Outcomes) (s0 : S) :
  for_each step (items ++ [x]) acc0 s0
  = match for_each step items acc0 s0 with
    | (Ok acc, s) => step x acc s
    | (Raise e, s) => (Raise e, s)
    end.
Proof.
  revert acc0 s0. induction items as [|y rest IH]; intros acc0 s0; simpl.
  - unfold bind, ret. now destruct (step x acc0 s0) as [[a|e] s1].
  - unfold bind. destruct (step y acc0 s0) as [[a|e] s1]; [apply IH | reflexivity].
Qed.

Lemma snoc_split (processed before after : list string) (x id : string) :
  (processed ++ [x] = before ++ id :: after)%list ->
  (after = [] /\ processed = before /\ x = id)
  \/ exists after', after = (after' ++ [x])%list
                    /\ processed = (before ++ id :: after')%list.
Proof.
  intros Heq. destruct after as [|a after] using rev_ind.
  - left. change (before ++ [id])%list with (before ++ [id])%list in Heq.
    apply app_inj_tail in Heq. destruct Heq as [-> ->]. auto.
  - right. exists after. clear IHafter.
    change (before ++ id :: after ++ [a])%list
      with (before ++ (id :: after) ++ [a])%list in Heq.
    rewrite app_assoc in Heq. apply app_inj_tail in Heq.
    destruct Heq as [-> ->]. auto.
Qed.

(** The failed list at the end of a loop holds what it held at the start
    and, besides, exactly the items of the exceptions raised on the way. *)
Lemma recorded_failures (items : list string) (acc0 : Outcomes) (s0 : S) :
  exists acc s,
    for_each step items acc0 s0 = (Ok acc, s)
    /\ forall item,
         In item (failed acc)
         <-> In item (failed acc0)
             \/ raised_in_pass step raises acc0 s0 items item.
Proof.
  induction items as [|x items IH] using rev_ind.
  - exists acc0, s0. split; [reflexivity|]. intros item. split; [now left|].
    intros [H | (id & e & before & after & acc_k & s_k & Heq & _)]; [exact H|].
    destruct before; discriminate Heq.
  - destruct IH as (acc & s & Hrun & Hiff).
    destruct (step_records x acc s) as (acc' & s' & Hstep & Hcase).
    exists acc', s'. split; [now rewrite for_each_snoc, Hrun|].
    assert (Hold : forall item,
               raised_in_pass step raises acc0 s0 items item ->
               raised_in_pass step raises acc0 s0 (items ++ [x]) item).
    { intros item (id & e & before & after & acc_k & s_k & -> & Hk & Hr & ->).
      exists id, e, before, (after ++ [x])%list, acc_k, s_k.
      rewrite <- app_assoc. simpl. now repeat split; eauto. }
    intros item. split.
    + intros Hin.
      assert (Hfrom : In item (failed acc)
                      \/ exists e, raises x s e /\ item = failed_item x e).
      { destruct Hcase as [[Hf _] | (e & Hr & _ & Hf)]; rewrite Hf in Hin.
        - now left.
        - apply in_app_or in Hin. destruct Hin as [Hin | [<- | []]]; [now left|].
          right. now exists e. }
      destruct Hfrom as [Hin' | (e & Hr & ->)].
      * apply Hiff in Hin'. destruct Hin' as [H | H]; [now left|].
        right. now apply Hold.
      * right. exists x, e, items, [], acc, s. now repeat split.
    + assert (Hkeep : In item (failed acc) -> In item (failed acc')).
      { intros Hin. destruct Hcase as [[Hf _] | (e & _ & _ & Hf)]; rewrite Hf.
        - exact Hin.
        - apply in_or_app. now left. }
      intros [H | (id & e & before & after & acc_k & s_k & Heq & Hk & Hr & ->)].
      * apply Hkeep, Hiff. now left.
      * apply snoc_split in Heq.
        destruct Heq as [(-> & -> & ->) | (after' & -> & ->)].
        -- rewrite Hrun in Hk. injection Hk as <- <-.
           destruct Hcase as [[_ Hnone] | (e0 & _ & Hone & Hf)].
           ++ exfalso. now apply (Hnone e).
           ++ rewrite Hf, (Hone e Hr). apply in_or_app. right. now left.
        -- apply Hkeep, Hiff. right.
           exists id, e, before, after', acc_k, s_k. now repeat split.
Qed.

End RecordedFailures.

Section StepsRecord.
Context {Host Handle : Type} {HMS : HostModuleSystem Host Handle}.
Implicit Types (bot : Bot Host Handle) (extension : string) (acc : Outcomes).

Lemma unload_step_records extension acc bot :
  exists acc' bot',
    unload_step extension acc bot = (Ok acc', bot')
    /\ (failed acc' = failed acc /\ (forall e, ~ unload_raises extension bot e)
        \/ exists e,
             unload_raises extension bot e
             /\ (forall e', unload_raises extension bot e' -> e' = e)
             /\ failed acc' = (failed acc ++ [failed_item extension e])%list).
Proof.
  unfold unload_step, try_except, try_except_else, bind, unload_raises.
  destruct (unload_extension extension bot) as [[[]|e] bot1]; simpl;
    do 2 eexists; (split; [reflexivity|]); simpl.
  - left. split; [reflexivity|]. intros e [bot' H]. discriminate H.
  - right. exists e. split; [now exists bot1|]. split; [|reflexivity].
    intros e' [bot' H]. now injection H as -> _.
Qed.

Lemma load_step_records extension acc bot :
  exists acc' bot',
    load_step extension acc bot = (Ok acc', bot')
    /\ (failed acc' = failed acc /\ (forall e, ~ load_raises extension bot e)
        \/ exists e,
             load_raises extension bot e
             /\ (forall e', load_raises extension bot e' -> e' = e)
             /\ failed acc' = (failed acc ++ [failed_item extension e])%list).
Proof.
  unfold load_step, try_except_else, load_raises.
  destruct (reload_or_load_extension extension bot) as [[st|e] bot1].
  - destruct st; simpl; do 2 eexists; (split; [reflexivity|]); simpl;
      left; (split; [reflexivity|]); intros e [bot' H]; discriminate H.
  - simpl. do 2 eexists. split; [reflexivity|]. simpl.
    right. exists e. split; [now exists bot1|]. split; [|reflexivity].
    intros e' [bot' H]. now injection H as -> _.
Qed.

End StepsRecord.

(** ** The claims about the lifecycle manager *)

Section LifecycleClaims.
Context {Host Handle : Type} {HMS : HostModuleSystem Host Handle}.
Variable common : Common.
Implicit Types (bot : Bot Host Handle) (name id extension : string) (acc : Outcomes).

(** The [reload all] command is discovery, the pass, and the report. *)
Lemma reload_all_unfold (fs : Filesystem) bot :
  _reload_all common fs bot
  = match get_allowed_extensions fs with
    | Raise e => (Raise e, bot)
    | Ok available_extensions =>
        match reconcile available_extensions bot with
        | (Raise e, bot') => (Raise e, bot')
        | (Ok acc, bot') =>
            (Ok (set_title "Cogs Update"
                   (create_cogs_embed common (loaded acc) (unloaded acc)
                      (Some (reloaded acc)) (Some (failed acc)))), bot')
        end
    end.
Proof.
  unfold _reload_all, bind, lift, ret.
  destruct (get_allowed_extensions fs) as [available|e]; [|reflexivity].
  now destruct (reconcile available bot) as [[acc|e] bot'].
Qed.

(** C1: in every pass of [reload all], the computed unload set is the
    snapshot of the active identifiers minus the desired ones, and after
    the pass every identifier for which no failure was recorded is active
    if and only if it is in the desired set.  The pass itself never
    raises, and [reload all] runs it on the filtered discovery output. *)
Theorem reconcile_set_algebra (desired : list string) bot :
  exists acc bot',
    reconcile desired bot = (Ok acc, bot')
    /\ (forall fs, get_allowed_extensions fs = Ok desired ->
          exists embed, _reload_all common fs bot = (Ok embed, bot'))
    /\ (forall id,
          In id (future_unload (extensions bot) desired)
          <-> In id (keys (extensions bot)) /\ ~ In id desired)
    /\ (forall id, ~ failed_for id acc ->
          (active id bot' = true <-> In id desired)).
Proof.
  destruct (reconcile_spec desired bot) as (acc & bot' & Hrun & Hset & _).
  exists acc, bot'. split; [exact Hrun|]. split; [|split].
  - intros fs Hfs. rewrite reload_all_unfold, Hfs, Hrun. eauto.
  - intros id. apply future_unload_In.
  - intros id Hclean.
    destruct (Hset id) as [Hf | Hiff]; [contradiction | exact Hiff].
Qed.

(** C8, as the code has it: when [reconcile(desired)] runs twice in
    succession on an unchanged [desired], the unload set of the second pass
    holds no identifier that the first pass left without a recorded
    failure (so it is empty when the first pass recorded no failure), and
    every identifier of [desired] without a recorded failure in either
    pass is Reloaded, and not Loaded, in the second pass. *)
Theorem reconcile_twice (desired : list string) bot :
  exists acc1 bot1 acc2 bot2,
    reconcile desired bot = (Ok acc1, bot1)
    /\ reconcile desired bot1 = (Ok acc2, bot2)
    /\ (forall id, ~ failed_for id acc1 ->
          ~ In id (future_unload (extensions bot1) desired))
    /\ (failed acc1 = [] -> future_unload (extensions bot1) desired = [])
    /\ (forall id, In id desired ->
          ~ failed_for id acc1 -> ~ failed_for id acc2 ->
          In (tick id) (reloaded acc2) /\ ~ In (tick id) (loaded acc2)).
Proof.
  destruct (reconcile_spec desired bot) as (acc1 & bot1 & Hrun1 & Hset1 & _).
  destruct (reconcile_spec desired bot1)
    as (acc2 & bot2 & Hrun2 & _ & _ & _ & _ & Hagain).
  exists acc1, bot1, acc2, bot2. do 2 (split; [assumption|]).
  assert (Hempty : forall id, ~ failed_for id acc1 ->
                     ~ In id (future_unload (extensions bot1) desired)).
  { intros id Hclean Hfut. apply future_unload_In in Hfut.
    destruct Hfut as [Hkey Hout]. apply is_loaded_keys in Hkey.
    destruct (Hset1 id) as [Hf | Hiff]; [contradiction|].
    apply Hout, Hiff. exact Hkey. }
  split; [exact Hempty|]. split.
  - intros Hnone.
    destruct (future_unload (extensions bot1) desired) as [|id rest] eqn:Hfut;
      [reflexivity|].
    exfalso. apply (Hempty id).
    + intros [e He]. rewrite Hnone in He. destruct He.
    + now left.
  - intros id Hin Hclean1 Hclean2.
    assert (Hact : active id bot1 = true).
    { destruct (Hset1 id) as [Hf | Hiff]; [contradiction | now apply Hiff]. }
    destruct (Hagain id Hact Hin) as [Hf | Hres]; [contradiction | exact Hres].
Qed.

(** C2, as the code has it: called when [id] is not active,
    [reload_or_load_extension] answers [loaded] with [id] active
    afterwards if the load succeeds, and otherwise raises the exception of
    the load with [id] still not active; called when [id] is active, it
    answers [reloaded] with [id] still active if the reload succeeds, and
    otherwise raises the exception of the reload; and one call never
    answers both: [loaded] is the answer for an identifier that was not
    active only, [reloaded] for one that was active only. *)
Theorem load_or_reload_categorization id bot :
  (active id bot = false ->
     (forall bot1, load_extension id bot = (Ok tt, bot1) ->
        reload_or_load_extension id bot = (Ok _ExtensionState.loaded, bot1)
        /\ active id bot1 = true)
     /\ (forall e bot1, load_extension id bot = (Raise e, bot1) ->
           reload_or_load_extension id bot = (Raise e, bot1)
           /\ active id bot1 = false))
  /\ (active id bot = true ->
        (forall bot1, reload_extension id bot = (Ok tt, bot1) ->
           reload_or_load_extension id bot = (Ok _ExtensionState.reloaded, bot1)
           /\ active id bot1 = true)
        /\ (forall e bot1, reload_extension id bot = (Raise e, bot1) ->
              reload_or_load_extension id bot = (Raise e, bot1)))
  /\ (forall ext_state bot1,
        reload_or_load_extension id bot = (Ok ext_state, bot1) ->
        ext_state = _ExtensionState.loaded /\ active id bot = false
        \/ ext_state = _ExtensionState.reloaded /\ active id bot = true).
Proof.
  split; [|split].
  - intros Hoff. split.
    + intros bot1 Hload.
      pose proof (load_extension_spec id bot) as Hs. rewrite Hload in Hs.
      destruct Hs as [_ Hact].
      unfold reload_or_load_extension, try_except, try_except_else, bind.
      rewrite Hload. split; [reflexivity|].
      now rewrite Hact, String.eqb_refl.
    + intros e bot1 Hload.
      pose proof (load_extension_spec id bot) as Hs. rewrite Hload in Hs.
      destruct Hs as [Hext Hkind].
      unfold reload_or_load_extension, try_except, try_except_else, bind.
      rewrite Hload. split.
      * destruct (exn_kind e) eqn:Hk; try reflexivity.
        assert (active id bot = true) by now apply Hkind. congruence.
      * unfold active in *. now rewrite Hext.
  - intros Hon.
    assert (Hload : load_extension id bot
                    = (Raise (mkExn ExtensionAlreadyLoaded
                                ("Extension '" ++ id ++ "' is already loaded.")),
                       bot)).
    { unfold load_extension. unfold active in Hon. now rewrite Hon. }
    split.
    + intros bot1 Hre.
      pose proof (reload_extension_spec id bot) as Hs. rewrite Hre in Hs.
      destruct Hs as [_ Hact].
      unfold reload_or_load_extension, try_except, try_except_else, bind.
      rewrite Hload. simpl. rewrite Hre. split; [reflexivity|].
      now rewrite Hact.
    + intros e bot1 Hre.
      unfold reload_or_load_extension, try_except, try_except_else, bind.
      rewrite Hload. simpl. now rewrite Hre.
  - intros ext_state bot1 Hrun.
    pose proof (reload_or_load_extension_spec id bot) as Hs.
    rewrite Hrun in Hs. apply Hs.
Qed.

(** C3: if, during the reload of an active [id], the unload step succeeds
    and the load step that follows fails, then [id] is not active
    afterwards (nothing is rolled back) and the outcome is a failure: the
    reload raises the exception of the load, the [reload <id>] command
    replies that reloading failed, [reload_or_load_extension] raises, and
    the pass of [reload all] records the identifier as failed. *)
Theorem reload_no_rollback id bot (handle : Handle) (host1 host2 : Host)
    (message : string) :
  dict_get id (extensions bot) = Some handle ->
  teardown handle (host bot) = (None, host1) ->
  instantiate id host1 = (inl message, host2) ->
  let e := mkExn LoadError message in
  let bot' := mkBot (dict_pop id (extensions bot)) host2 (logged bot) in
  unload_extension id bot
  = (Ok tt, mkBot (dict_pop id (extensions bot)) host1 (logged bot))
  /\ reload_extension id bot = (Raise e, bot')
  /\ active id bot' = false
  /\ _reload id bot
     = (Ok ("**Failed reloading `" ++ id ++ "`!**" ++ nl
            ++ "```LoadError: " ++ message ++ "```"), bot')
  /\ reload_or_load_extension id bot = (Raise e, bot')
  /\ forall acc,
       load_step id acc bot
       = (Ok (mkOutcomes (loaded acc) (unloaded acc) (reloaded acc)
                (failed acc ++ [failed_item id e])), bot').
Proof.
  intros Hget Htear Hinst e bot'.
  assert (Hoff : is_loaded id (dict_pop id (extensions bot)) = false)
    by (now rewrite is_loaded_dict_pop, String.eqb_refl).
  assert (Hon : is_loaded id (extensions bot) = true)
    by (apply dict_get_is_loaded; now exists handle).
  assert (Hun : unload_extension id bot
                = (Ok tt, mkBot (dict_pop id (extensions bot)) host1 (logged bot)))
    by (unfold unload_extension; now rewrite Hget, Htear).
  assert (Hre : reload_extension id bot = (Raise e, bot')).
  { unfold reload_extension, bind. rewrite Hun.
    unfold load_extension. simpl. now rewrite Hoff, Hinst. }
  assert (Hrol : reload_or_load_extension id bot = (Raise e, bot')).
  { unfold reload_or_load_extension, try_except, try_except_else, bind.
    unfold load_extension at 1. rewrite Hon. simpl. now rewrite Hre. }
  repeat split; auto.
  - unfold _reload, try_except_else. now rewrite Hre.
  - intros acc. unfold load_step, try_except_else. now rewrite Hrol.
Qed.

Lemma for_each_app {S A : Type} (step : string -> A -> M S A)
    (before after : list string) (a : A) (s : S) :
  for_each step (before ++ after) a s
  = bind (for_each step before a) (for_each step after) s.
Proof.
  revert a s. induction before as [|x rest IH]; intros a s; simpl.
  - reflexivity.
  - unfold bind. destruct (step x a s) as [[a1|e] s1]; [|reflexivity].
    rewrite IH. reflexivity.
Qed.

(** The report ends with the items of the failed list, one per line. *)
Lemma report_ends_with_failed (loaded unloaded reloaded failed : list string) :
  exists before,
    description (create_cogs_embed common loaded unloaded (Some reloaded) (Some failed))
    = before ++ PyStr.join nl failed.
Proof.
  unfold create_cogs_embed. cbv beta zeta. cbn [description].
  match goal with
  | |- exists _, ?L ++ ?U ++ ?R ++ _ = _ =>
      set (lo := L); set (un := U); set (re := R)
  end.
  destruct (Nat.ltb 0 (List.length failed)).
  - exists (lo ++ un ++ re ++ Emoji_x common ++ " **Failed - ["
            ++ PyStr.str_of_nat (List.length failed) ++ "]**" ++ nl).
    repeat rewrite PyStrFacts.append_assoc. reflexivity.
  - exists (lo ++ un ++ re).
    repeat rewrite PyStrFacts.append_assoc. reflexivity.
Qed.

(** C4, as the code has it: in every pass of [reload all], an exception
    raised while one identifier is unloaded, loaded or reloaded is caught
    and recorded as the failed item of that identifier, and every
    identifier of the batch gets its outcome, whatever happened to the
    others.  The initial pass at startup, [init_extensions], is different:
    it logs the first exception and raises it again, so the identifiers
    after the failing one are not processed. *)
Theorem failure_isolation (desired : list string) bot :
  (exists acc bot',
      reconcile desired bot = (Ok acc, bot')
      /\ (forall id, In id (future_unload (extensions bot) desired) ->
            In (tick id) (unloaded acc) \/ failed_for id acc)
      /\ (forall id, In id desired ->
            In (tick id) (loaded acc) \/ In (tick id) (reloaded acc)
            \/ failed_for id acc))
  /\ (forall extension acc e bot1,
        unload_extension extension bot = (Raise e, bot1) ->
        unload_step extension acc bot
        = (Ok (mkOutcomes (loaded acc) (unloaded acc) (reloaded acc)
                 (failed acc ++ [failed_item extension e])), bot1))
  /\ (forall extension acc e bot1,
        reload_or_load_extension extension bot = (Raise e, bot1) ->
        load_step extension acc bot
        = (Ok (mkOutcomes (loaded acc) (unloaded acc) (reloaded acc)
                 (failed acc ++ [failed_item extension e])), bot1))
  /\ (forall fs before ext after bot1 e bot2,
        get_allowed_extensions fs = Ok (before ++ ext :: after)%list ->
        for_each init_step before tt bot = (Ok tt, bot1) ->
        load_extension ext bot1 = (Raise e, bot2) ->
        init_extensions fs bot
        = (Raise e,
           mkBot (extensions bot2) (host bot2)
             (logged bot2
              ++ [(LogLevel.error,
                   (class_name (exn_kind e) ++ ": " ++ exn_msg e)%string)])%list)).
Proof.
  split; [|split; [|split]].
  - destruct (reconcile_spec desired bot)
      as (acc & bot' & Hrun & _ & Hun & Hlo & _).
    exists acc, bot'. auto.
  - intros extension acc e bot1 Hun.
    unfold unload_step, try_except, try_except_else, bind. now rewrite Hun.
  - intros extension acc e bot1 Hrol.
    unfold load_step, try_except_else. now rewrite Hrol.
  - intros fs before ext after bot1 e bot2 Hfs Hbefore Hload.
    unfold init_extensions, bind at 1, lift. rewrite Hfs.
    rewrite for_each_app. unfold bind at 1. rewrite Hbefore. simpl.
    unfold bind at 1, init_step, try_except, try_except_else.
    rewrite Hload. reflexivity.
Qed.

(** C6, as the code has it: if a configured extension directory does not
    exist when [reload all] is invoked, the exception of the discovery is
    not caught by the command: it leaves [_reload_all] as it was raised,
    before any extension is touched and without a report. *)
Theorem discovery_error_propagates (fs : Filesystem) bot (ext_dir : string) :
  In ext_dir EXTENSIONS_DIRS ->
  fs ext_dir = None ->
  exists e,
    exn_kind e = FileNotFoundError
    /\ get_allowed_extensions fs = Raise e
    /\ _reload_all common fs bot = (Raise e, bot).
Proof.
  intros Hin Hfs.
  destruct (DiscoveryFacts.scan_dirs_missing keep_allowed fs EXTENSIONS_DIRS []
              ext_dir Hin Hfs) as [e [Hscan Hkind]].
  exists e. split; [exact Hkind|]. split; [exact Hscan|].
  rewrite reload_all_unfold. unfold get_allowed_extensions. now rewrite Hscan.
Qed.

(** C7, as the code has it: every item of the failed list of a pass is
    formatted from the identifier and the class name of the exception
    alone, as [`id`: `Kind`]: the failed list holds exactly the items of
    the exceptions that the unload of an identifier of the unload set, or
    the load or reload of an available extension, raised during the pass,
    each with the class name of that very exception; the message of the
    exception is not part of the item.  The rendered report ends with
    these items. *)
Theorem failed_items_format (desired : list string) bot :
  exists acc1 bot1 acc bot',
    for_each unload_step (future_unload (extensions bot) desired)
      (mkOutcomes [] [] [] []) bot = (Ok acc1, bot1)
    /\ for_each load_step desired acc1 bot1 = (Ok acc, bot')
    /\ reconcile desired bot = (Ok acc, bot')
    /\ (forall item,
          In item (failed acc)
          <-> raised_in_pass unload_step unload_raises (mkOutcomes [] [] [] []) bot
                (future_unload (extensions bot) desired) item
              \/ raised_in_pass load_step load_raises acc1 bot1 desired item)
    /\ (forall item, In item (failed acc) ->
          exists id e,
            (In id (future_unload (extensions bot) desired) \/ In id desired)
            /\ item = "`" ++ id ++ "`: `" ++ class_name (exn_kind e) ++ "`")
    /\ (forall id e message,
          failed_item id e = failed_item id (mkExn (exn_kind e) message))
    /\ (exists before,
          description
            (create_cogs_embed common (loaded acc) (unloaded acc)
               (Some (reloaded acc)) (Some (failed acc)))
          = before ++ PyStr.join nl (failed acc)).
Proof.
  destruct (recorded_failures unload_step unload_raises unload_step_records
              (future_unload (extensions bot) desired) (mkOutcomes [] [] [] []) bot)
    as (acc1 & bot1 & Hrun1 & Hiff1).
  destruct (recorded_failures load_step load_raises load_step_records
              desired acc1 bot1)
    as (acc & bot' & Hrun2 & Hiff2).
  assert (Hrun : reconcile desired bot = (Ok acc, bot')).
  { unfold reconcile, bind at 1, get. unfold bind. now rewrite Hrun1. }
  exists acc1, bot1, acc, bot'. do 3 (split; [assumption|]).
  split; [|split; [|split]].
  - intros item. rewrite Hiff2, Hiff1. simpl. tauto.
  - destruct (reconcile_spec desired bot)
      as (acc0 & bot0 & Hrun0 & _ & _ & _ & Hitems & _).
    rewrite Hrun in Hrun0. injection Hrun0 as <- <-. exact Hitems.
  - reflexivity.
  - apply report_ends_with_failed.
Qed.

(** C10: in the report of [cogs list], no item is in both the loaded and
    the unloaded list, and every active extension is in the loaded list,
    whatever the unfiltered discovery returned. *)
Theorem cogs_list_report (all_extensions : list string) bot :
  (forall item,
      In item (cogs_list_loaded (extensions bot)) ->
      ~ In item (cogs_list_unloaded all_extensions (extensions bot)))
  /\ (forall id, active id bot = true ->
        In (tick id) (cogs_list_loaded (extensions bot)))
  /\ (forall fs, get_all_extensions fs = Ok all_extensions ->
        _cogs_list common fs bot
        = (Ok (set_title "Cogs List"
                 (create_cogs_embed common
                    (cogs_list_loaded (extensions bot))
                    (cogs_list_unloaded all_extensions (extensions bot))
                    None None)), bot)).
Proof.
  split; [|split].
  - unfold cogs_list_loaded, cogs_list_unloaded. intros item Hlo Hun.
    apply in_map_iff in Hlo. destruct Hlo as [id [<- Hid]].
    apply in_map_iff in Hun. destruct Hun as [id' [Heq Hid']].
    apply PyStrFacts.tick_inj in Heq. subst id'.
    apply filter_In in Hid'. destruct Hid' as [_ Hoff].
    apply is_loaded_keys in Hid. rewrite Hid in Hoff. discriminate.
  - intros id Hact. unfold cogs_list_loaded. apply in_map.
    now apply is_loaded_keys.
  - intros fs Hfs. unfold _cogs_list, bind, lift, get, ret. now rewrite Hfs.
Qed.

End LifecycleClaims.

(** ** The claims on concrete inputs *)

(** The scenario of the specification: [cogs.a] and [cogs.b] are desired,
    [cogs.b] and [cogs.c] are active. *)
Example scenario_reconcile :
  reconcile ["cogs.a"; "cogs.b"] (demo_bot ["cogs.b"; "cogs.c"] [] [])
  = (Ok (mkOutcomes ["`cogs.a`"] ["`cogs.c`"] ["`cogs.b`"] []),
     demo_bot ["cogs.a"; "cogs.b"] [] []).
Proof. reflexivity. Qed.

Lemma reconcile_set_algebra_witness :
  let bot' := snd (reconcile ["cogs.a"; "cogs.b"] (demo_bot ["cogs.b"; "cogs.c"] [] [])) in
  active "cogs.a" bot' = true /\ active "cogs.c" bot' = false.
Proof.
  destruct (reconcile_set_algebra demo_common ["cogs.a"; "cogs.b"]
              (demo_bot ["cogs.b"; "cogs.c"] [] []))
    as (acc & bot' & Hrun & _ & _ & Hset).
  rewrite scenario_reconcile in Hrun. injection Hrun as <- <-.
  rewrite scenario_reconcile. simpl snd.
  assert (Hclean : forall id, ~ failed_for id (mkOutcomes ["`cogs.a`"] ["`cogs.c`"] ["`cogs.b`"] []))
    by (intros id [e []]).
  split.
  - apply (Hset "cogs.a" (Hclean _)). now left.
  - destruct (active "cogs.c" (demo_bot ["cogs.a"; "cogs.b"] [] [])) eqn:Hact;
      [|reflexivity].
    apply (Hset "cogs.c" (Hclean _)) in Hact.
    destruct Hact as [H | [H | []]]; discriminate H.
Defined.

(** C2 as stated fails: [cogs.a] is not active and its setup raises; the
    call answers no category and [cogs.a] is not active afterwards. *)
Lemma load_or_reload_counterexample :
  let bot := demo_bot [] ["cogs.a"] [] in
  active "cogs.a" bot = false
  /\ reload_or_load_extension "cogs.a" bot
     = (Raise (mkExn LoadError "setup of cogs.a raised"), bot)
  /\ active "cogs.a" (snd (reload_or_load_extension "cogs.a" bot)) = false.
Proof. repeat split. Qed.

Lemma load_or_reload_categorization_witness :
  reload_or_load_extension "cogs.a" (demo_bot [] [] [])
  = (Ok _ExtensionState.loaded, demo_bot ["cogs.a"] [] [])
  /\ reload_or_load_extension "cogs.a" (demo_bot ["cogs.a"] [] [])
     = (Ok _ExtensionState.reloaded, demo_bot ["cogs.a"] [] []).
Proof.
  split.
  - apply (proj1 (load_or_reload_categorization "cogs.a" (demo_bot [] [] []))
             eq_refl).
    reflexivity.
  - apply (proj1 (proj2 (load_or_reload_categorization "cogs.a"
                           (demo_bot ["cogs.a"] [] []))) eq_refl).
    reflexivity.
Defined.

Lemma reload_no_rollback_witness :
  reload_extension "cogs.a" (demo_bot ["cogs.a"] ["cogs.a"] [])
  = (Raise (mkExn LoadError "setup of cogs.a raised"), demo_bot [] ["cogs.a"] [])
  /\ active "cogs.a" (demo_bot [] ["cogs.a"] []) = false
  /\ _reload "cogs.a" (demo_bot ["cogs.a"] ["cogs.a"] [])
     = (Ok ("**Failed reloading `cogs.a`!**" ++ nl
            ++ "```LoadError: setup of cogs.a raised```"),
        demo_bot [] ["cogs.a"] []).
Proof.
  pose proof (reload_no_rollback "cogs.a" (demo_bot ["cogs.a"] ["cogs.a"] [])
                "cogs.a" (mkDemoHost ["cogs.a"] []) (mkDemoHost ["cogs.a"] [])
                "setup of cogs.a raised" eq_refl eq_refl eq_refl) as H.
  cbv zeta in H. destruct H as (_ & Hre & Hoff & Hcmd & _).
  split; [exact Hre | split; [exact Hoff | exact Hcmd]].
Defined.

(** C4 as stated fails for the pass at startup: the setup of [cogs.error]
    raises, [init_extensions] raises in turn, and [cogs.minigames.chess],
    which comes later and would load, is never loaded. *)
Lemma startup_aborts_counterexample :
  let bot := demo_bot [] ["cogs.error"] [] in
  let bot' := snd (init_extensions demo_fs bot) in
  get_allowed_extensions demo_fs
  = Ok ["cogs.admin"; "cogs.error"; "cogs.minigames.chess"]
  /\ fst (init_extensions demo_fs bot)
     = Raise (mkExn LoadError "setup of cogs.error raised")
  /\ keys (extensions bot') = ["cogs.admin"]
  /\ logged bot' = [(LogLevel.error, "LoadError: setup of cogs.error raised")]
  /\ active "cogs.minigames.chess" bot' = false
  /\ fst (load_extension "cogs.minigames.chess" bot') = Ok tt.
Proof. repeat split. Qed.

Lemma failure_isolation_witness :
  init_extensions demo_fs (demo_bot [] ["cogs.error"] [])
  = (Raise (mkExn LoadError "setup of cogs.error raised"),
     mkBot [("cogs.admin", "cogs.admin")] (mkDemoHost ["cogs.error"] [])
       [(LogLevel.error, "LoadError: setup of cogs.error raised")])
  /\ fst (reconcile ["cogs.admin"; "cogs.error"; "cogs.minigames.chess"]
            (demo_bot [] ["cogs.error"] []))
     = Ok (mkOutcomes ["`cogs.admin`"; "`cogs.minigames.chess`"] [] []
             ["`cogs.error`: `LoadError`"]).
Proof.
  split; [|reflexivity].
  apply (proj2 (proj2 (proj2
           (failure_isolation (HMS := demo_hms) []
              (demo_bot [] ["cogs.error"] []))))
           demo_fs ["cogs.admin"] "cogs.error" ["cogs.minigames.chess"]
           (demo_bot ["cogs.admin"] ["cogs.error"] [])
           (mkExn LoadError "setup of cogs.error raised")
           (demo_bot ["cogs.admin"] ["cogs.error"] [])
           eq_refl eq_refl eq_refl).
Defined.

(** A file system whose [./cogs] holds [__init__.py] only. *)
Lemma init_file_counterexample :
  let fs : Filesystem :=
    fun path =>
      if String.eqb path "./cogs" then Some ["__init__.py"]
      else if String.eqb path "./cogs/minigames" then Some []
      else None in
  In "./cogs" EXTENSIONS_DIRS
  /\ fs "./cogs" = Some ["__init__.py"]
  /\ PyStr.endswith "__init__.py" ".py" = true
  /\ identifier "./cogs" "__init__.py" = "cogs.__init__"
  /\ get_all_extensions fs = Ok []
  /\ ~ In (identifier "./cogs" "__init__.py") [].
Proof.
  cbv zeta. repeat split; [now left | intros []].
Qed.

Lemma filter_correctness_witness :
  In "cogs.admin" ["cogs.admin"; "cogs.error"; "cogs.minigames.chess"]
  /\ In "cogs.!wip"
       ["cogs.admin"; "cogs.!wip"; "cogs.error";
        "cogs.minigames.chess"; "cogs.minigames.old__init__x"]
  /\ ~ In "cogs.!wip" ["cogs.admin"; "cogs.error"; "cogs.minigames.chess"].
Proof.
  split; [|split].
  - apply (proj1 (filter_correctness demo_fs "./cogs" "admin.py" _ _ _
                    (or_introl eq_refl) eq_refl (or_intror (or_introl eq_refl))
                    eq_refl eq_refl eq_refl)).
    intros ignore [<- | [<- | []]]; reflexivity.
  - apply (proj2 (filter_correctness demo_fs "./cogs" "!wip.py" _ _ _
                    (or_introl eq_refl) eq_refl
                    (or_intror (or_intror (or_introl eq_refl)))
                    eq_refl eq_refl eq_refl)).
    discriminate.
  - intros Hin.
    pose proof (proj1 (proj1 (filter_correctness demo_fs "./cogs" "!wip.py" _ _ _
                    (or_introl eq_refl) eq_refl
                    (or_intror (or_intror (or_introl eq_refl)))
                    eq_refl eq_refl eq_refl)) Hin "!" (or_introl eq_refl)) as H.
    discriminate H.
Defined.

(** C6 as stated fails: no configured directory exists; [reload all]
    raises the exception of [os.listdir] and replies nothing. *)
Lemma missing_directory_counterexample :
  let bot := demo_bot ["cogs.b"] [] [] in
  _reload_all demo_common (fun _ => None) bot
  = (Raise (mkExn FileNotFoundError
              "[Errno 2] No such file or directory: './cogs'"), bot).
Proof. reflexivity. Qed.

Lemma discovery_error_propagates_witness :
  exists e,
    exn_kind e = FileNotFoundError
    /\ get_allowed_extensions (fun _ => None) = Raise e
    /\ _reload_all demo_common (fun _ => None) (demo_bot ["cogs.b"] [] [])
       = (Raise e, demo_bot ["cogs.b"] [] []).
Proof.
  exact (discovery_error_propagates demo_common (fun _ => None)
           (demo_bot ["cogs.b"] [] []) "./cogs" (or_introl eq_refl) eq_refl).
Defined.

(** C7 as stated fails: the setup of [cogs.admin] raises with a message;
    its item in the report names the class of the exception and not the
    message. *)
Lemma failed_item_counterexample :
  let bot := demo_bot [] ["cogs.admin"] [] in
  let report := description_of (fst (_reload_all demo_common demo_fs bot)) in
  fst (reload_or_load_extension "cogs.admin" bot)
  = Raise (mkExn LoadError "setup of cogs.admin raised")
  /\ fst (reconcile ["cogs.admin"; "cogs.error"; "cogs.minigames.chess"] bot)
     = Ok (mkOutcomes ["`cogs.error`"; "`cogs.minigames.chess`"] [] []
             ["`cogs.admin`: `LoadError`"])
  /\ PyStr.contains "`cogs.admin`: `LoadError`" report = true
  /\ PyStr.contains "setup of cogs.admin raised" report = false
  /\ PyStr.contains "setup of cogs.admin raised" "`cogs.admin`: `LoadError`" = false.
Proof. repeat split. Qed.

Lemma failed_items_format_witness :
  exists acc bot',
    reconcile ["cogs.a"] (demo_bot ["cogs.old"] ["cogs.a"] ["cogs.old"])
    = (Ok acc, bot')
    /\ In "`cogs.old`: `UnloadError`" (failed acc)
    /\ In "`cogs.a`: `LoadError`" (failed acc).
Proof.
  destruct (failed_items_format demo_common ["cogs.a"]
              (demo_bot ["cogs.old"] ["cogs.a"] ["cogs.old"]))
    as (acc1 & bot1 & acc & bot' & Hrun1 & _ & Hrun & Hiff & _).
  injection Hrun1 as <- <-.
  exists acc, bot'. split; [exact Hrun|]. split.
  - apply Hiff. left.
    exists "cogs.old", (mkExn UnloadError "teardown of cogs.old raised"),
      [], [], (mkOutcomes [] [] [] []),
      (demo_bot ["cogs.old"] ["cogs.a"] ["cogs.old"]).
    repeat split. now eexists.
  - apply Hiff. right.
    exists "cogs.a", (mkExn LoadError "setup of cogs.a raised"), [], [].
    do 2 eexists. split; [reflexivity|]. split; [reflexivity|].
    split; [eexists; reflexivity | reflexivity].
Defined.

(** C8 as stated fails: the teardown of [cogs.old] and the setup of
    [cogs.a] raise, in both passes; the unload set of the second pass is
    not empty and [cogs.a] is not Reloaded. *)
Lemma reconcile_twice_counterexample :
  let desired := ["cogs.a"] in
  let bot := demo_bot ["cogs.old"] ["cogs.a"] ["cogs.old"] in
  let bot1 := snd (reconcile desired bot) in
  In "cogs.a" desired
  /\ bot1 = bot
  /\ future_unload (extensions bot1) desired = ["cogs.old"]
  /\ fst (reconcile desired bot1)
     = Ok (mkOutcomes [] [] []
             ["`cogs.old`: `UnloadError`"; "`cogs.a`: `LoadError`"]).
Proof. cbv zeta. repeat split. now left. Qed.

Lemma reconcile_twice_witness :
  let desired := ["cogs.a"; "cogs.b"] in
  let bot1 := snd (reconcile desired (demo_bot ["cogs.b"; "cogs.c"] [] [])) in
  future_unload (extensions bot1) desired = []
  /\ In "`cogs.a`" (reloaded_of (fst (reconcile desired bot1))).
Proof.
  cbv zeta.
  destruct (reconcile_twice ["cogs.a"; "cogs.b"] (demo_bot ["cogs.b"; "cogs.c"] [] []))
    as (acc1 & bot1 & acc2 & bot2 & Hrun1 & Hrun2 & _ & Hempty & Hre).
  rewrite scenario_reconcile in Hrun1. injection Hrun1 as <- <-.
  rewrite scenario_reconcile. simpl snd. rewrite Hrun2. simpl.
  split; [now apply Hempty|].
  apply (Hre "cogs.a"); [now left | intros [e []] |].
  injection Hrun2 as <- <-. intros [e []].
Defined.

Lemma filtered_subset_of_unfiltered_witness :
  exists all,
    get_all_extensions demo_fs = Ok all
    /\ forall id,
         In id ["cogs.admin"; "cogs.error"; "cogs.minigames.chess"] -> In id all.
Proof.
  exact (proj1 (filtered_subset_of_unfiltered demo_fs
                  ["cogs.admin"; "cogs.error"; "cogs.minigames.chess"] eq_refl)).
Defined.

Lemma cogs_list_report_witness :
  In "`cogs.outside`"
    (cogs_list_loaded (extensions (demo_bot ["cogs.admin"; "cogs.outside"] [] []))).
Proof.
  apply (proj1 (proj2 (cogs_list_report demo_common []
                         (demo_bot ["cogs.admin"; "cogs.outside"] [] [])))
           "cogs.outside" eq_refl).
Defined.

(** * Further properties of the code *)

(** ** Discovery: the shape of the output *)

Module DiscoveryShape.
Import PyStr PyStrFacts DiscoveryFacts.

Lemma contains_cons (needle : string) (a : ascii) (t : string) :
  contains needle (String a t)
  = startswith (String a t) needle || contains needle t.
Proof. reflexivity. Qed.

Lemma replace_from_cons (old new : string) (a : ascii) (t : string) :
  replace_from old new 0 (String a t)
  = if startswith (String a t) old
    then new ++ replace_from old new (String.length old - 1) t
    else String a (replace_from old new 0 t).
Proof. reflexivity. Qed.

Lemma startswith_cons (a b : ascii) (s p : string) :
  startswith (String b s) (String a p) = Ascii.eqb a b && startswith s p.
Proof. reflexivity. Qed.

Lemma startswith_nil (s : string) : startswith s "" = true.
Proof. now destruct s. Qed.

(** Replacing every slash leaves no slash. *)
Lemma replace_slash_none (s : string) :
  contains "/" (replace_from "/" "." 0 s) = false.
Proof.
  induction s as [|a t IH]; [reflexivity|].
  rewrite replace_from_cons, startswith_cons, startswith_nil, andb_true_r.
  destruct (Ascii.eqb "/" a) eqn:Ha.
  - change ("." ++ replace_from "/" "." (String.length "/" - 1) t)
      with (String "."%char (replace_from "/" "." 0 t)).
    rewrite contains_cons, startswith_cons, IH. reflexivity.
  - rewrite contains_cons, startswith_cons, Ha, IH. reflexivity.
Qed.

(** Without a slash there is nothing to replace. *)
Lemma replace_slash_id (s : string) :
  contains "/" s = false -> replace_from "/" "." 0 s = s.
Proof.
  induction s as [|a t IH]; [reflexivity|].
  rewrite contains_cons. intros H. apply orb_false_iff in H.
  destruct H as [Hhere Hrest].
  rewrite replace_from_cons, Hhere. now rewrite IH.
Qed.

Lemma replace_dot_slash_id (s : string) :
  contains "/" s = false -> replace_from "./" "" 0 s = s.
Proof.
  induction s as [|a t IH]; [reflexivity|].
  rewrite contains_cons. intros H. apply orb_false_iff in H.
  destruct H as [_ Hrest].
  rewrite replace_from_cons.
  assert (Hno : startswith (String a t) "./" = false).
  { rewrite startswith_cons. destruct (Ascii.eqb "." a); [|reflexivity].
    rewrite andb_true_l. destruct t as [|b t']; [reflexivity|].
    rewrite contains_cons, startswith_cons, startswith_nil, andb_true_r in Hrest.
    apply orb_false_iff in Hrest. destruct Hrest as [Hb _].
    now rewrite startswith_cons, Hb. }
  rewrite Hno. now rewrite IH.
Qed.

Lemma dotted_no_slash (ext_dir : string) : contains "/" (dotted ext_dir) = false.
Proof. unfold dotted, replace. apply replace_slash_none. Qed.

Lemma dotted_dotted (ext_dir : string) : dotted (dotted ext_dir) = dotted ext_dir.
Proof.
  pose proof (dotted_no_slash ext_dir) as Hno.
  unfold dotted at 1. unfold replace.
  rewrite (replace_dot_slash_id _ Hno). now apply replace_slash_id.
Qed.

(** The inner loop in closed form. *)
Lemma scan_filenames_closed (keep : string -> bool) (ext_dir : string) :
  forall filenames current extensions,
    dotted current = dotted ext_dir ->
    scan_filenames keep current filenames extensions
    = (extensions ++ map (identifier ext_dir) (filter keep filenames))%list.
Proof.
  induction filenames as [|f rest IH]; intros current extensions Hcur; simpl.
  - now rewrite app_nil_r.
  - destruct (keep f); [|now apply IH].
    rewrite IH.
    + rewrite <- app_assoc. simpl. unfold identifier at 2. now rewrite Hcur.
    + rewrite Hcur. apply dotted_dotted.
Qed.

(** X1: the directory part of an identifier has no slash left, and doing
    the replacement again changes nothing, whatever the directory: the
    reassignment of [ext_dir] inside the loop of the discovery functions
    does not change the identifiers of the files that follow, and the loop
    appends, in the order of the listing, the identifier of every file the
    test keeps. *)
Theorem dotted_idempotent (ext_dir : string) :
  contains "/" (dotted ext_dir) = false
  /\ dotted (dotted ext_dir) = dotted ext_dir
  /\ forall keep filenames extensions,
       scan_filenames keep ext_dir filenames extensions
       = (extensions
          ++ map (fun filename =>
                    (dotted ext_dir ++ "." ++ slice_to_neg 3 filename)%string)
               (filter keep filenames))%list.
Proof.
  split; [apply dotted_no_slash|]. split; [apply dotted_dotted|].
  intros keep filenames extensions.
  now rewrite (scan_filenames_closed keep ext_dir filenames ext_dir extensions eq_refl).
Qed.

(** X2: when both configured directories exist, each discovery function
    returns the identifiers of the files its test keeps, those of [./cogs]
    first and those of [./cogs/minigames] after them, each group in the
    order [os.listdir] gave the files. *)
Theorem discovery_closed_form (fs : Filesystem) (cogs minigames : list string) :
  fs "./cogs" = Some cogs ->
  fs "./cogs/minigames" = Some minigames ->
  get_all_extensions fs
  = Ok (map (fun f => ("cogs." ++ slice_to_neg 3 f)%string) (filter keep_all cogs)
        ++ map (fun f => ("cogs.minigames." ++ slice_to_neg 3 f)%string)
             (filter keep_all minigames))%list
  /\ get_allowed_extensions fs
     = Ok (map (fun f => ("cogs." ++ slice_to_neg 3 f)%string) (filter keep_allowed cogs)
           ++ map (fun f => ("cogs.minigames." ++ slice_to_neg 3 f)%string)
                (filter keep_allowed minigames))%list.
Proof.
  intros Hc Hm. unfold get_all_extensions, get_allowed_extensions, EXTENSIONS_DIRS.
  simpl scan_dirs. unfold os_listdir. rewrite Hc, Hm.
  rewrite !(scan_filenames_closed _ _ _ _ _ eq_refl). simpl app.
  split; reflexivity.
Qed.

(** X3: when [./cogs] does not exist, both discovery functions raise
    [FileNotFoundError] with [./cogs] in the message; when [./cogs] is
    listed and [./cogs/minigames] does not exist, both raise
    [FileNotFoundError] with [./cogs/minigames] in the message, and the
    identifiers already collected from [./cogs] are not returned. *)
Theorem discovery_missing_directory (fs : Filesystem) :
  (fs "./cogs" = None ->
   get_all_extensions fs = Raise (no_such_file "./cogs")
   /\ get_allowed_extensions fs = Raise (no_such_file "./cogs"))
  /\ (forall cogs, fs "./cogs" = Some cogs -> fs "./cogs/minigames" = None ->
      get_all_extensions fs = Raise (no_such_file "./cogs/minigames")
      /\ get_allowed_extensions fs = Raise (no_such_file "./cogs/minigames")).
Proof.
  unfold get_all_extensions, get_allowed_extensions, EXTENSIONS_DIRS.
  simpl scan_dirs. unfold os_listdir, no_such_file. split.
  - intros ->. split; reflexivity.
  - intros cogs -> ->. split; reflexivity.
Qed.

Lemma startswith_take (n : nat) (s p : string) :
  startswith (take n s) p = true -> startswith s p = true.
Proof.
  revert n s. induction p as [|c p IH]; intros n s H; [now destruct s|].
  destruct n as [|n]; destruct s as [|a s]; simpl in *; try discriminate.
  apply andb_true_iff in H. destruct H as [Hc Hp].
  rewrite Hc. simpl. now apply (IH n).
Qed.

Lemma contains_take (n : nat) (s needle : string) :
  contains needle (take n s) = true -> contains needle s = true.
Proof.
  revert n. induction s as [|a s IH]; intros n H.
  - now destruct n.
  - destruct n as [|n].
    + simpl take in H. rewrite contains_cons.
      destruct needle; [reflexivity | discriminate H].
    + simpl take in H. rewrite contains_cons in *.
      apply orb_true_iff in H. apply orb_true_iff.
      destruct H as [H | H].
      * left. now apply (startswith_take (S n) (String a s)).
      * right. now apply (IH n).
Qed.

(** X4: no identifier of the filtered discovery contains an ignore
    substring. *)
Theorem allowed_identifiers_clean (fs : Filesystem) (allowed : list string)
    (id ignore : string) :
  get_allowed_extensions fs = Ok allowed ->
  In id allowed ->
  In ignore IGNORED_EXTENSIONS ->
  contains ignore id = false.
Proof.
  intros Hallowed Hid Hig.
  apply (scan_dirs_In _ _ _ _ _ _ dotted_configured Hallowed) in Hid.
  destruct Hid as [[] | (d & fl & f & Hd & _ & _ & Hk & ->)].
  apply keep_allowed_true in Hk. destruct Hk as [_ Hnone].
  specialize (Hnone ignore Hig).
  assert (Hslice : contains ignore (slice_to_neg 3 f) = false).
  { destruct (contains ignore (slice_to_neg 3 f)) eqn:Hc; [|reflexivity].
    apply contains_take in Hc. congruence. }
  unfold identifier.
  destruct Hd as [<- | [<- | []]]; destruct Hig as [<- | [<- | []]];
    exact Hslice.
Qed.

End DiscoveryShape.

(** ** The pass of [_reload_all]: what it records and what it touches *)

Section ReconcileAccount.
Context {Host Handle : Type} {HMS : HostModuleSystem Host Handle}.
Implicit Types (bot : Bot Host Handle) (id extension : string) (acc : Outcomes).

Lemma unload_account_step bot0 processed extension acc bot :
  unload_account bot0 processed acc bot ->
  exists acc' bot',
    unload_step extension acc bot = (Ok acc', bot')
    /\ unload_account bot0 (processed ++ [extension]) acc' bot'.
Proof.
  intros (Hlo & Hre & Hlen & Hmono & Hitems).
  destruct (unload_step_spec extension acc bot)
    as (acc' & bot' & Hrun & Hlo' & Hre' & Hcase).
  pose proof (unload_extension_spec extension bot) as Hprim.
  exists acc', bot'. split; [exact Hrun|].
  unfold unload_account. rewrite Hlo', Hre'. do 2 (split; [assumption|]).
  rewrite length_app. simpl List.length.
  destruct Hcase as [(Hun & Hfa & Hact) | (e & _ & Hun & Hfa & Hact)].
  - assert (Hwas : active extension bot = true).
    { unfold unload_step, try_except, try_except_else, bind in Hrun.
      destruct (unload_extension extension bot) as [[[]|e] bot1].
      - now destruct Hprim.
      - simpl in Hrun. injection Hrun as Hacc _. rewrite <- Hacc in Hun.
        simpl in Hun. exfalso. apply (f_equal (@List.length string)) in Hun.
        rewrite length_app in Hun. simpl in Hun. lia. }
    rewrite Hun, Hfa, length_app. simpl List.length. split; [lia|]. split.
    + intros id. rewrite Hact. intros H. apply andb_true_iff in H.
      now apply Hmono.
    + intros item Hin. apply in_app_or in Hin.
      destruct Hin as [Hin | [<- | []]].
      * destruct (Hitems item Hin) as (id & Hid & -> & Hon & Hoff).
        exists id. repeat split; auto.
        -- apply in_or_app. now left.
        -- rewrite Hact, Hoff. apply andb_false_r.
      * exists extension. repeat split; auto.
        -- apply in_or_app. right. now left.
        -- now rewrite Hact, String.eqb_refl.
  - rewrite Hun, Hfa, length_app. simpl List.length. split; [lia|]. split.
    + intros id. rewrite Hact. apply Hmono.
    + intros item Hin.
      destruct (Hitems item Hin) as (id & Hid & -> & Hon & Hoff).
      exists id. repeat split; auto.
      * apply in_or_app. now left.
      * now rewrite Hact.
Qed.

Lemma load_account_step acc1 bot1 processed extension acc bot :
  load_account acc1 bot1 processed acc bot ->
  exists acc' bot',
    load_step extension acc bot = (Ok acc', bot')
    /\ load_account acc1 bot1 (processed ++ [extension]) acc' bot'.
Proof.
  intros (Hun & Hlen & Hact & Hlo & Hre).
  destruct (load_step_spec extension acc bot)
    as (acc' & bot' & Hrun & Hun' & Hcase).
  exists acc', bot'. split; [exact Hrun|].
  unfold load_account. rewrite Hun'. split; [assumption|].
  rewrite length_app. simpl List.length.
  assert (Hgrow : forall id, In id processed -> In id (processed ++ [extension]))
    by (intros id H; apply in_or_app; now left).
  assert (Hnew : In extension (processed ++ [extension]))
    by (apply in_or_app; right; now left).
  assert (Hact' : forall id, active id bot' = true ->
                    In id (processed ++ [extension]) \/ active id bot1 = true).
  { intros id Hon. destruct (string_dec id extension) as [-> | Hne]; [now left|].
    assert (Hsame : active id bot' = active id bot).
    { destruct Hcase as [(_ & _ & _ & _ & H) | [(_ & _ & _ & _ & H) | (e & _ & _ & _ & _ & H)]].
      - rewrite H. destruct (String.eqb_spec extension id); [congruence | reflexivity].
      - apply H.
      - now apply H. }
    rewrite Hsame in Hon. destruct (Hact id Hon); auto. }
  destruct Hcase as [(Hl & Hr & Hf & _) | [(Hl & Hr & Hf & _) | (e & _ & Hl & Hr & Hf & _)]];
    rewrite Hl, Hr, Hf; repeat rewrite length_app; simpl List.length;
    (split; [lia|]); (split; [exact Hact'|]); split.
  - intros item Hin. apply in_app_or in Hin. destruct Hin as [Hin | [<- | []]].
    + destruct (Hlo item Hin) as [H | (id & Hid & ->)]; [now left|].
      right. exists id. auto.
    + right. exists extension. auto.
  - intros item Hin. destruct (Hre item Hin) as [H | (id & Hid & ->)]; [now left|].
    right. exists id. auto.
  - intros item Hin. destruct (Hlo item Hin) as [H | (id & Hid & ->)]; [now left|].
    right. exists id. auto.
  - intros item Hin. apply in_app_or in Hin. destruct Hin as [Hin | [<- | []]].
    + destruct (Hre item Hin) as [H | (id & Hid & ->)]; [now left|].
      right. exists id. auto.
    + right. exists extension. auto.
  - intros item Hin. destruct (Hlo item Hin) as [H | (id & Hid & ->)]; [now left|].
    right. exists id. auto.
  - intros item Hin. destruct (Hre item Hin) as [H | (id & Hid & ->)]; [now left|].
    right. exists id. auto.
Qed.

(** The pass with both accounts. *)
Lemma reconcile_account (desired : list string) bot :
  exists acc1 bot1 acc bot',
    reconcile desired bot = (Ok acc, bot')
    /\ unload_account bot (future_unload (extensions bot) desired) acc1 bot1
    /\ load_account acc1 bot1 desired acc bot'.
Proof.
  unfold reconcile, bind, get. simpl.
  set (future := future_unload (extensions bot) desired).
  destruct (for_each_invariant unload_step (unload_account bot)
              (fun processed x a s => unload_account_step bot processed x a s)
              future [] (mkOutcomes [] [] [] []) bot)
    as (acc1 & bot1 & Hrun1 & Hinv1).
  { unfold unload_account. simpl. repeat split; auto; try (intros ? []). }
  rewrite Hrun1.
  destruct (for_each_invariant load_step (load_account acc1 bot1)
              (fun processed x a s => load_account_step acc1 bot1 processed x a s)
              desired [] acc1 bot1)
    as (acc & bot' & Hrun2 & Hinv2).
  { unfold load_account. simpl. repeat split; auto; try lia. }
  exists acc1, bot1, acc, bot'. auto.
Qed.

(** X5: the pass of [reload all] records exactly one outcome for every
    transition it attempts: the four lists together have as many items as
    the unload set and the available extensions together. *)
Theorem reconcile_one_record_each (desired : list string) bot :
  exists acc bot',
    reconcile desired bot = (Ok acc, bot')
    /\ List.length (loaded acc) + List.length (unloaded acc)
       + List.length (reloaded acc) + List.length (failed acc)
       = List.length (future_unload (extensions bot) desired)
         + List.length desired.
Proof.
  destruct (reconcile_account desired bot)
    as (acc1 & bot1 & acc & bot' & Hrun & Hinv1 & Hinv2).
  exists acc, bot'. split; [exact Hrun|].
  destruct Hinv1 as (Hlo1 & Hre1 & Hlen1 & _).
  destruct Hinv2 as (Hun & Hlen2 & _).
  rewrite Hun. rewrite Hlo1, Hre1 in Hlen2. simpl in Hlen2. lia.
Qed.

(** X6: the pass of [reload all] unloads only extensions that were active
    and are not available, and these are not active afterwards; it records
    as loaded or reloaded only available extensions; and no extension is
    active afterwards that was neither active before nor available. *)
Theorem reconcile_touches_only (desired : list string) bot :
  exists acc bot',
    reconcile desired bot = (Ok acc, bot')
    /\ (forall item, In item (unloaded acc) ->
          exists id, item = tick id /\ active id bot = true
                     /\ ~ In id desired /\ active id bot' = false)
    /\ (forall item, In item (loaded acc) \/ In item (reloaded acc) ->
          exists id, item = tick id /\ In id desired)
    /\ (forall id, active id bot' = true ->
          In id desired \/ active id bot = true).
Proof.
  destruct (reconcile_account desired bot)
    as (acc1 & bot1 & acc & bot' & Hrun & Hinv1 & Hinv2).
  exists acc, bot'. split; [exact Hrun|].
  destruct Hinv1 as (Hlo1 & Hre1 & _ & Hmono & Hitems).
  destruct Hinv2 as (Hun & _ & Hact & Hlo & Hre).
  split; [|split].
  - intros item Hin. rewrite Hun in Hin.
    destruct (Hitems item Hin) as (id & Hfut & -> & Hon & Hoff).
    apply future_unload_In in Hfut. destruct Hfut as [_ Hout].
    exists id. repeat split; auto.
    destruct (active id bot') eqn:Hend; [|reflexivity].
    destruct (Hact id Hend) as [H | H]; [contradiction | congruence].
  - intros item [Hin | Hin].
    + destruct (Hlo item Hin) as [H | (id & Hid & ->)].
      * rewrite Hlo1 in H. destruct H.
      * now exists id.
    + destruct (Hre item Hin) as [H | (id & Hid & ->)].
      * rewrite Hre1 in H. destruct H.
      * now exists id.
  - intros id Hon. destruct (Hact id Hon) as [H | H]; [now left|].
    right. now apply Hmono.
Qed.

End ReconcileAccount.

(** ** Startup and the single-extension commands *)

Section StartupFacts.
Context {Host Handle : Type} {HMS : HostModuleSystem Host Handle}.
Implicit Types (bot : Bot Host Handle) (id ext extension : string).

Lemma load_extension_logged extension bot :
  logged (snd (load_extension extension bot)) = logged bot.
Proof.
  unfold load_extension.
  destruct (is_loaded extension (extensions bot)); [reflexivity|].
  now destruct (instantiate extension (host bot)) as [[msg | handle] host'].
Qed.

(** One turn of the loop of [init_extensions]. *)
Lemma init_step_spec ext bot :
  (exists bot1,
      init_step ext tt bot = (Ok tt, bot1)
      /\ active ext bot = false
      /\ (forall id, active id bot1 = String.eqb ext id || active id bot)
      /\ logged bot1 = logged bot)
  \/ (exists e bot1,
         init_step ext tt bot = (Raise e, bot1)
         /\ extensions bot1 = extensions bot
         /\ logged bot1
            = (logged bot
               ++ [(LogLevel.error,
                    (class_name (exn_kind e) ++ ": " ++ exn_msg e)%string)])%list
         /\ (exn_kind e = ExtensionAlreadyLoaded <-> active ext bot = true)).
Proof.
  unfold init_step, try_except, try_except_else, bind, log, raise.
  pose proof (load_extension_spec ext bot) as Hs.
  pose proof (load_extension_logged ext bot) as Hl.
  destruct (load_extension ext bot) as [[[]|e] bot1]; simpl in *.
  - left. exists bot1. destruct Hs as [Hoff Hact]. auto.
  - right. exists e. eexists. split; [reflexivity|]. simpl.
    destruct Hs as [Hext Hkind]. rewrite Hl. auto.
Qed.

Lemma init_loop_ok (extensions : list string) :
  forall bot bot',
    for_each init_step extensions tt bot = (Ok tt, bot') ->
    NoDup extensions
    /\ (forall id, In id extensions -> active id bot = false)
    /\ (forall id, active id bot' = true <-> In id extensions \/ active id bot = true)
    /\ logged bot' = logged bot.
Proof.
  induction extensions as [|x rest IH]; intros bot bot' Hrun.
  - simpl in Hrun. injection Hrun as <-. repeat split; auto.
    + constructor.
    + intros id [].
    + intros [[] | H]; exact H.
  - simpl in Hrun. unfold bind in Hrun.
    destruct (init_step_spec x bot)
      as [(bot1 & Hstep & Hoff & Hact & Hlog) | (e & bot1 & Hstep & _)];
      rewrite Hstep in Hrun; [|discriminate].
    destruct (IH _ _ Hrun) as (Hnodup & Hfresh & Hiff & Hlog').
    assert (Hx : ~ In x rest).
    { intros Hin. specialize (Hfresh x Hin).
      rewrite Hact, String.eqb_refl in Hfresh. discriminate. }
    repeat split.
    + now constructor.
    + intros id [<- | Hin]; [exact Hoff|].
      specialize (Hfresh id Hin). rewrite Hact in Hfresh.
      now apply orb_false_iff in Hfresh.
    + intros Hon. apply Hiff in Hon. destruct Hon as [Hin | Hon].
      * left. now right.
      * rewrite Hact in Hon. apply orb_true_iff in Hon.
        destruct Hon as [Heq | Hon]; [|now right].
        apply String.eqb_eq in Heq. left. now left.
    + intros H. apply Hiff. rewrite Hact.
      destruct H as [[<- | Hin] | Hon].
      * right. now rewrite String.eqb_refl.
      * now left.
      * right. rewrite Hon. apply orb_true_r.
    + congruence.
Qed.


(** X7: when [init_extensions] returns, every allowed extension is active,
    the extensions that were active still are, and nothing was logged; and
    it can only return when the discovered identifiers are pairwise
    distinct and none of them was active before. *)
Theorem init_extensions_success (fs : Filesystem) bot bot' :
  init_extensions fs bot = (Ok tt, bot') ->
  exists allowed,
    get_allowed_extensions fs = Ok allowed
    /\ NoDup allowed
    /\ (forall id, In id allowed -> active id bot = false)
    /\ (forall id, active id bot' = true <-> In id allowed \/ active id bot = true)
    /\ logged bot' = logged bot.
Proof.
  unfold init_extensions, bind at 1, lift. intros Hrun.
  destruct (get_allowed_extensions fs) as [allowed|e]; [|discriminate].
  exists allowed. split; [reflexivity|]. now apply init_loop_ok.
Qed.


(** X9: the [load] command never raises; it replies the success text
    exactly when the extension was not active and is active afterwards,
    and no other extension changes. *)
Theorem load_command_reply extension bot :
  exists text bot',
    load extension bot = (Ok text, bot')
    /\ (text = "**Successfully loaded `" ++ extension ++ "`!**"
        <-> active extension bot = false /\ active extension bot' = true)
    /\ (forall id, id <> extension -> active id bot' = active id bot).
Proof.
  unfold load, try_except_else, ret.
  pose proof (load_extension_spec extension bot) as Hs.
  destruct (load_extension extension bot) as [[[]|e] bot1].
  - destruct Hs as [Hoff Hact]. do 2 eexists. split; [reflexivity|]. split.
    + split; [|reflexivity]. intros _. split; [exact Hoff|].
      now rewrite Hact, String.eqb_refl.
    + intros id Hne. rewrite Hact.
      destruct (String.eqb_spec extension id); [congruence | reflexivity].
  - destruct Hs as [Hext _]. do 2 eexists. split; [reflexivity|].
    assert (Hsame : forall id, active id bot1 = active id bot)
      by (intros id; unfold active; now rewrite Hext).
    split; [|auto]. split.
    + intros H. discriminate H.
    + intros [Hoff Hon]. rewrite Hsame in Hon. congruence.
Qed.

(** X10: the [unload] command never raises; it replies the success text
    exactly when the extension was active and is not active afterwards,
    and no other extension changes. *)
Theorem unload_command_reply extension bot :
  exists text bot',
    unload extension bot = (Ok text, bot')
    /\ (text = "**Successfully unloaded `" ++ extension ++ "`!**"
        <-> active extension bot = true /\ active extension bot' = false)
    /\ (forall id, id <> extension -> active id bot' = active id bot).
Proof.
  unfold unload, try_except_else, ret.
  pose proof (unload_extension_spec extension bot) as Hs.
  destruct (unload_extension extension bot) as [[[]|e] bot1].
  - destruct Hs as [Hon Hact]. do 2 eexists. split; [reflexivity|]. split.
    + split; [|reflexivity]. intros _. split; [exact Hon|].
      now rewrite Hact, String.eqb_refl.
    + intros id Hne. rewrite Hact.
      destruct (String.eqb_spec extension id); [congruence | reflexivity].
  - destruct Hs as [Hext _]. do 2 eexists. split; [reflexivity|].
    assert (Hsame : forall id, active id bot1 = active id bot)
      by (intros id; unfold active; now rewrite Hext).
    split; [|auto]. split.
    + intros H. discriminate H.
    + intros [Hon Hoff]. rewrite Hsame in Hoff. congruence.
Qed.

End StartupFacts.

(** ** The report *)

Section ReportFacts.
Import PyStr PyStrFacts DiscoveryShape.
Variable common : Common.

Lemma startswith_append_r (s p q : string) :
  startswith s p = true -> startswith (s ++ q) p = true.
Proof.
  revert s. induction p as [|c p IH]; intros s H; [apply startswith_nil|].
  destruct s as [|a s]; [discriminate|].
  simpl append. rewrite startswith_cons in *.
  apply andb_true_iff in H. destruct H as [Hc Hp].
  now rewrite Hc, (IH s Hp).
Qed.

Lemma startswith_self (p q : string) : startswith (p ++ q) p = true.
Proof.
  induction p as [|c p IH]; [apply startswith_nil|].
  simpl append. now rewrite startswith_cons, Ascii.eqb_refl, IH.
Qed.

Lemma contains_append_r (needle s q : string) :
  contains needle s = true -> contains needle (s ++ q) = true.
Proof.
  induction s as [|a s IH]; intros H.
  - simpl in H. rewrite orb_false_r in H. destruct needle; [|discriminate].
    destruct q; reflexivity.
  - simpl append. rewrite contains_cons in *.
    apply orb_true_iff in H. apply orb_true_iff. destruct H as [H | H].
    + left. now apply (startswith_append_r (String a s)).
    + right. now apply IH.
Qed.

Lemma contains_self (needle q : string) : contains needle (needle ++ q) = true.
Proof.
  destruct (needle ++ q) as [|a t] eqn:Heq.
  - destruct needle; [reflexivity | discriminate].
  - rewrite contains_cons, <- Heq, startswith_self. reflexivity.
Qed.

Lemma join_contains (sep item : string) (items : list string) :
  In item items -> contains item (join sep items) = true.
Proof.
  induction items as [|x rest IH]; intros Hin; [destruct Hin|].
  destruct rest as [|y rest].
  - destruct Hin as [<- | []]. simpl.
    rewrite <- (append_nil_r x) at 2. apply contains_self.
  - change (join sep (x :: y :: rest)) with (x ++ sep ++ join sep (y :: rest)).
    destruct Hin as [<- | Hin].
    + apply contains_self.
    + rewrite <- append_assoc. apply contains_append_l. now apply IH.
Qed.

(** A category with an item contains it, header or not. *)
Lemma section_contains (emoji s1 count s2 tail item : string) (items : list string) :
  In item items ->
  contains item
    (if Nat.ltb 0 (List.length items)
     then emoji ++ s1 ++ count ++ s2 ++ nl ++ join nl items ++ tail
     else join nl items) = true.
Proof.
  intros Hin. pose proof (join_contains nl item items Hin) as Hj.
  destruct (Nat.ltb 0 (List.length items)); [|exact Hj].
  do 5 apply contains_append_l. now apply contains_append_r.
Qed.

Lemma last_section_contains (emoji s1 count s2 item : string) (items : list string) :
  In item items ->
  contains item
    (if Nat.ltb 0 (List.length items)
     then emoji ++ s1 ++ count ++ s2 ++ nl ++ join nl items
     else join nl items) = true.
Proof.
  intros Hin. pose proof (join_contains nl item items Hin) as Hj.
  destruct (Nat.ltb 0 (List.length items)); [|exact Hj].
  do 5 apply contains_append_l. exact Hj.
Qed.

(** X11: the report loses nothing: every item of each of the four lists
    handed to [create_cogs_embed] occurs in the description. *)
Theorem report_keeps_every_item (loaded unloaded reloaded failed : list string)
    (item : string) :
  In item loaded \/ In item unloaded \/ In item reloaded \/ In item failed ->
  contains item
    (description (create_cogs_embed common loaded unloaded
                    (Some reloaded) (Some failed))) = true.
Proof.
  intros Hin. unfold create_cogs_embed. cbv beta zeta. cbn [description].
  destruct Hin as [H | [H | [H | H]]].
  - apply contains_append_r. now apply section_contains.
  - apply contains_append_l, contains_append_r. now apply section_contains.
  - do 2 apply contains_append_l. apply contains_append_r.
    now apply section_contains.
  - do 3 apply contains_append_l. now apply last_section_contains.
Qed.

(** X12: the description is empty exactly when all four lists are empty:
    a category without items adds nothing, one with items adds its
    header. *)
Theorem report_empty_iff (loaded unloaded reloaded failed : list string) :
  description (create_cogs_embed common loaded unloaded
                 (Some reloaded) (Some failed)) = ""
  <-> loaded = [] /\ unloaded = [] /\ reloaded = [] /\ failed = [].
Proof.
  assert (Happ : forall a b : string, a ++ b = "" -> a = "" /\ b = "").
  { intros a b H. destruct a; [now split | discriminate]. }
  assert (Hsec : forall (emoji rest : string) (items : list string),
             (if Nat.ltb 0 (List.length items)
              then emoji ++ " **" ++ rest
              else join nl items) = "" -> items = []).
  { intros emoji rest items H. destruct items as [|x items]; [reflexivity|].
    simpl Nat.ltb in H. cbv iota in H.
    apply Happ in H. destruct H as [_ H]. discriminate H. }
  unfold create_cogs_embed. cbv beta zeta. cbn [description]. split.
  - intros H. apply Happ in H. destruct H as [H1 H].
    apply Happ in H. destruct H as [H2 H].
    apply Happ in H. destruct H as [H3 H4].
    repeat split.
    + apply (Hsec (Emoji_arrow_up common)
               ("Loaded - [" ++ str_of_nat (List.length loaded) ++ "]**" ++ nl
                ++ join nl loaded ++ nl ++ nl)). exact H1.
    + apply (Hsec (Emoji_arrow_down common)
               ("Unloaded - [" ++ str_of_nat (List.length unloaded) ++ "]**" ++ nl
                ++ join nl unloaded ++ nl ++ nl)). exact H2.
    + apply (Hsec (Emoji_arrows_counterclockwise common)
               ("Reloaded - [" ++ str_of_nat (List.length reloaded) ++ "]**" ++ nl
                ++ join nl reloaded ++ nl ++ nl)). exact H3.
    + apply (Hsec (Emoji_x common)
               ("Failed - [" ++ str_of_nat (List.length failed) ++ "]**" ++ nl
                ++ join nl failed)). exact H4.
  - intros (-> & -> & -> & ->). reflexivity.
Qed.

End ReportFacts.

(** ** [create_txt_file] *)

Module TxtFileFacts.
Import PyStr PyStrFacts PyMore.

Lemma take_all (n : nat) (s : string) :
  String.length s <= n -> take n s = s.
Proof.
  revert n. induction s as [|a s IH]; intros n H.
  - now destruct n.
  - destruct n as [|n]; simpl in *; [lia|]. rewrite IH; [reflexivity | lia].
Qed.

(** The first [a] characters and the next [b] are the first [a + b]. *)
Lemma take_slice (a b : nat) (s : string) :
  take a s ++ slice a (a + b) s = take (a + b) s.
Proof.
  unfold slice. replace (a + b - a) with b by lia.
  revert s. induction a as [|a IH]; intros s.
  - now destruct s.
  - destruct s as [|c s]; simpl.
    + now destruct b.
    + now rewrite IH.
Qed.

Lemma ceil_div_covers (n d : nat) : 0 < d -> n <= ceil_div n d * d.
Proof.
  intros Hd. unfold ceil_div.
  pose proof (Nat.div_mod_eq n d) as Heq.
  pose proof (Nat.mod_upper_bound n d) as Hlt.
  destruct (Nat.eqb_spec (n mod d) 0) as [Hz | Hnz]; nia.
Qed.

(** The loop that appends the chunks, for any size of chunk: with the
    first [start * steps] characters in the file, [count] turns leave the
    first [(start + count) * steps]. *)
Lemma append_chunks (path content : string) (steps : nat) :
  forall count start disk,
    log_dir_exists disk = true ->
    file_content disk path = Some (take (start * steps) content) ->
    exists disk',
      for_in
        (fun i (_ : unit) =>
           open_append path (slice (i * steps) (i * steps + steps) content))
        (seq start count) tt disk = (Ok tt, disk')
      /\ log_dir_exists disk' = true
      /\ file_content disk' path = Some (take ((start + count) * steps) content)
      /\ forall p, p <> path -> file_content disk' p = file_content disk p.
Proof.
  induction count as [|count IH]; intros start disk Hdir Hfile.
  - exists disk. rewrite Nat.add_0_r. simpl. auto.
  - simpl for_in. unfold bind, open_append at 1. rewrite Hdir, Hfile.
    rewrite take_slice.
    match goal with
    | |- exists _, for_in _ _ _ ?d = _ /\ _ => destruct (IH (S start) d) as (disk' & Hrun & Hdir' & Hfile' & Hother)
    end.
    + reflexivity.
    + simpl file_content. rewrite String.eqb_refl. f_equal. f_equal. lia.
    + exists disk'. split; [exact Hrun|]. split; [exact Hdir'|]. split.
      * rewrite Hfile'. f_equal. f_equal. lia.
      * intros p Hne. rewrite (Hother p Hne). simpl.
        destruct (String.eqb_spec p path); [congruence | reflexivity].
Qed.

(** X13: when [./log] exists, [create_txt_file] leaves a file that holds
    exactly [content], written at once or in chunks of 2000 characters
    ([large]), touches no other file, and answers the file under the name
    [content_<time stamp>.txt]; when [./log] does not exist it raises
    [FileNotFoundError] and writes nothing. *)
Theorem create_txt_file_content (dt_fm content : string) (large : bool) (disk : Disk) :
  let filename := "content_" ++ dt_fm ++ ".txt" in
  let filepath := "./log/" ++ filename in
  (log_dir_exists disk = true ->
   exists disk',
     create_txt_file dt_fm content large disk = (Ok (mkFile filepath filename), disk')
     /\ file_content disk' filepath = Some content
     /\ forall p, p <> filepath -> file_content disk' p = file_content disk p)
  /\ (log_dir_exists disk = false ->
      create_txt_file dt_fm content large disk = (Raise (no_such_file filepath), disk)).
Proof.
  intros filename filepath. split.
  - intros Hdir. unfold create_txt_file. cbv zeta.
    fold filename. fold filepath. destruct large.
    + unfold bind at 1 2, open_write at 1. rewrite Hdir.
      set (steps := 2000).
      destruct (append_chunks filepath content steps
                  (ceil_div (String.length content) steps - 1) 1
                  (mkDisk true
                     (fun p => if String.eqb p filepath
                               then Some (take steps content)
                               else file_content disk p)))
        as (disk' & Hrun & _ & Hfile & Hother).
      * reflexivity.
      * simpl file_content. rewrite String.eqb_refl. now rewrite Nat.mul_1_l.
      * unfold range. rewrite Hrun. exists disk'. split; [reflexivity|]. split.
        -- rewrite Hfile. f_equal. apply take_all.
           pose proof (ceil_div_covers (String.length content) steps) as Hc.
           assert (0 < steps) by (unfold steps; lia). nia.
        -- intros p Hne. rewrite (Hother p Hne). simpl.
           destruct (String.eqb_spec p filepath); [congruence | reflexivity].
    + unfold bind, open_write. rewrite Hdir. eexists. split; [reflexivity|].
      simpl. rewrite String.eqb_refl. split; [reflexivity|].
      intros p Hne. destruct (String.eqb_spec p filepath); [congruence | reflexivity].
  - intros Hdir. unfold create_txt_file. cbv zeta.
    fold filename. fold filepath. destruct large.
    + unfold bind at 1 2, open_write at 1. now rewrite Hdir.
    + unfold bind, open_write. now rewrite Hdir.
Qed.

End TxtFileFacts.

(** ** [bin] *)

Module BinFacts.
Import PyStr PyStrFacts DiscoveryShape.
Local Open Scope Z_scope.

(** Masking with one bit leaves zero exactly when the bit is clear. *)
Lemma land_one_bit (dec bit : Z) :
  0 <= bit ->
  Z.eqb (Z.land dec (Z.shiftl 1 bit)) 0 = negb (Z.testbit dec bit).
Proof.
  intros Hbit. rewrite Z.shiftl_1_l.
  destruct (Z.testbit dec bit) eqn:Htest; simpl.
  - apply Z.eqb_neq. intros Hzero.
    assert (Hb : Z.testbit (Z.land dec (2 ^ bit)) bit = true)
      by (rewrite Z.land_spec, Htest, Z.pow2_bits_true; auto).
    rewrite Hzero, Z.bits_0 in Hb. discriminate.
  - apply Z.eqb_eq. apply Z.bits_inj'. intros n Hn.
    rewrite Z.land_spec, Z.bits_0, Z.pow2_bits_eqb by exact Hbit.
    destruct (Z.eqb_spec bit n) as [<- | _].
    + now rewrite Htest.
    + apply andb_false_r.
Qed.

(** X14: with a bit index that is not negative and that the interpreter
    can shift by, [bin] sends [`1`] when that bit of [dec] is set and
    [`0`] when it is clear, negative numbers in two's complement; a
    negative index makes the shift raise [ValueError], an index beyond
    what the interpreter can shift by makes it raise too, and in both
    cases nothing is sent. *)
Theorem bin_reports_bit (str_period_insert : string -> string -> nat -> string)
    (max_shift dec bit : Z) :
  (0 <= bit <= max_shift ->
   bin str_period_insert max_shift dec (Some bit)
   = Sends (if Z.testbit dec bit then "`1`" else "`0`")%string)
  /\ (bit < 0 ->
      bin str_period_insert max_shift dec (Some bit)
      = RaisesValueError "negative shift count")
  /\ (0 <= bit -> max_shift < bit ->
      bin str_period_insert max_shift dec (Some bit) = RaisesShiftTooLarge).
Proof.
  split; [|split]; unfold bin.
  - intros [Hbit Hmax].
    destruct (Z.ltb_spec bit 0) as [Hneg | _]; [lia|].
    destruct (Z.ltb_spec max_shift bit) as [Hbig | _]; [lia|].
    cbv zeta. rewrite (land_one_bit dec bit Hbit).
    now destruct (Z.testbit dec bit).
  - intros Hbit.
    destruct (Z.ltb_spec bit 0) as [_ | Hpos]; [reflexivity | lia].
  - intros Hbit Hmax.
    destruct (Z.ltb_spec bit 0) as [Hneg | _]; [lia|].
    destruct (Z.ltb_spec max_shift bit) as [_ | Hsmall]; [reflexivity | lia].
Qed.

Local Close Scope Z_scope.

Lemma contains_char_append (c : ascii) (a b : string) :
  contains (String c "") (a ++ b)
  = contains (String c "") a || contains (String c "") b.
Proof.
  induction a as [|x a IH]; simpl append.
  - reflexivity.
  - rewrite !contains_cons, !startswith_cons, !startswith_nil, IH.
    now rewrite orb_assoc.
Qed.

Lemma bits_no_b (p : positive) : contains "b" (PyMore.bits p) = false.
Proof.
  induction p as [p IH | p IH |]; simpl PyMore.bits;
    try rewrite contains_char_append, IH; reflexivity.
Qed.

(** Without the letter [b] there is no [0b] to replace. *)
Lemma replace_0b_id (s : string) :
  contains "b" s = false -> replace_from "0b" "" 0 s = s.
Proof.
  induction s as [|a t IH]; [reflexivity|].
  rewrite contains_cons. intros H. apply orb_false_iff in H.
  destruct H as [_ Hrest].
  rewrite replace_from_cons.
  assert (Hno : startswith (String a t) "0b" = false).
  { rewrite startswith_cons. destruct (Ascii.eqb "0" a); [|reflexivity].
    rewrite andb_true_l. destruct t as [|b t']; [reflexivity|].
    rewrite contains_cons, startswith_cons, startswith_nil, andb_true_r in Hrest.
    apply orb_false_iff in Hrest. destruct Hrest as [Hb _].
    now rewrite startswith_cons, Hb. }
  rewrite Hno. now rewrite IH.
Qed.

(** X15: without a bit index, [bin] hands to [str_period_insert] the
    binary digits of [dec], most significant first, with a minus sign in
    front for a negative number and without the [0b] of Python's [bin],
    and sends the result in a code block. *)
Theorem bin_digits (str_period_insert : string -> string -> nat -> string)
    (max_shift dec : Z) :
  bin str_period_insert max_shift dec None
  = Sends ("```"
           ++ str_period_insert
                match dec with
                | Z0 => "0"
                | Zpos p => PyMore.bits p
                | Zneg p => "-" ++ PyMore.bits p
                end " " 4
           ++ "```").
Proof.
  unfold bin. cbv zeta. do 3 f_equal. unfold replace.
  assert (Hstrip : forall p,
             replace_from "0b" "" 0 (String "0" (String "b" (PyMore.bits p)))
             = PyMore.bits p).
  { intros p. rewrite replace_from_cons.
    rewrite !startswith_cons, startswith_nil. simpl.
    apply replace_0b_id, bits_no_b. }
  destruct dec as [|p|p]; [reflexivity| |].
  - f_equal. apply Hstrip.
  - f_equal.
    change (PyMore.bin (Zneg p))
      with (String "-" (String "0" (String "b" (PyMore.bits p)))).
    rewrite replace_from_cons, startswith_cons. simpl andb. cbv iota.
    simpl append. f_equal. apply Hstrip.
Qed.

End BinFacts.

(** ** [cogs list], and startup followed by [reload all] *)

Section ListingFacts.
Context {Host Handle : Type} {HMS : HostModuleSystem Host Handle}.
Variable common : Common.
Implicit Types (bot : Bot Host Handle) (id : string).

(** X16: [cogs list] changes nothing in the bot; it raises exactly when
    the unfiltered discovery raises, and then the same exception;
    otherwise it replies the embed built from its loaded and unloaded
    lists, titled [Cogs List]; an identifier is in its loaded list exactly
    when it is active, and in its unloaded list exactly when it was
    discovered and is not active. *)
Theorem cogs_list_partition (fs : Filesystem) bot :
  snd (_cogs_list common fs bot) = bot
  /\ (forall e,
        get_all_extensions fs = Raise e
        <-> exists bot', _cogs_list common fs bot = (Raise e, bot'))
  /\ (forall all_extensions,
        get_all_extensions fs = Ok all_extensions ->
        _cogs_list common fs bot
        = (Ok (set_title "Cogs List"
                 (create_cogs_embed common
                    (cogs_list_loaded (extensions bot))
                    (cogs_list_unloaded all_extensions (extensions bot))
                    None None)), bot))
  /\ (forall id,
        In (tick id) (cogs_list_loaded (extensions bot)) <-> active id bot = true)
  /\ (forall all_extensions id,
        In (tick id) (cogs_list_unloaded all_extensions (extensions bot))
        <-> In id all_extensions /\ active id bot = false).
Proof.
  split; [|split; [|split; [|split]]].
  - unfold _cogs_list, bind, lift, get, ret.
    now destruct (get_all_extensions fs).
  - intros e. unfold _cogs_list, bind, lift, get, ret.
    destruct (get_all_extensions fs) as [all|e0]; split.
    + discriminate.
    + intros [bot' H]. discriminate H.
    + intros H. injection H as ->. now exists bot.
    + intros [bot' H]. now injection H as -> _.
  - intros all_extensions Hfs.
    unfold _cogs_list, bind, lift, get, ret. now rewrite Hfs.
  - intros id. unfold cogs_list_loaded, active. rewrite in_map_iff. split.
    + intros [x [Heq Hin]]. apply PyStrFacts.tick_inj in Heq. subst x.
      now apply is_loaded_keys.
    + intros H. exists id. split; [reflexivity | now apply is_loaded_keys].
  - intros all_extensions id. unfold cogs_list_unloaded, active.
    rewrite in_map_iff. split.
    + intros [x [Heq Hin]]. apply PyStrFacts.tick_inj in Heq. subst x.
      apply filter_In in Hin. destruct Hin as [Hin Hoff].
      now apply negb_true_iff in Hoff.
    + intros [Hin Hoff]. exists id. split; [reflexivity|].
      apply filter_In. split; [exact Hin | now apply negb_true_iff].
Qed.

(** X17: after a startup that succeeded on a bot without active
    extensions, a [reload all] on the same directory contents has nothing
    to unload, and every available extension is reloaded, not loaded,
    unless its reload fails. *)
Theorem startup_then_reload_all (fs : Filesystem) bot bot1 (allowed : list string) :
  extensions bot = [] ->
  init_extensions fs bot = (Ok tt, bot1) ->
  get_allowed_extensions fs = Ok allowed ->
  future_unload (extensions bot1) allowed = []
  /\ exists acc bot2 embed,
       reconcile allowed bot1 = (Ok acc, bot2)
       /\ _reload_all common fs bot1 = (Ok embed, bot2)
       /\ unloaded acc = []
       /\ forall id, In id allowed ->
            failed_for id acc
            \/ In (tick id) (reloaded acc) /\ ~ In (tick id) (loaded acc).
Proof.
  intros Hempty Hinit Hallowed.
  unfold init_extensions, bind at 1, lift in Hinit. rewrite Hallowed in Hinit.
  destruct (init_loop_ok allowed bot bot1 Hinit) as (_ & _ & Hiff & _).
  assert (Hact : forall id, active id bot1 = true <-> In id allowed).
  { intros id. rewrite Hiff. unfold active. rewrite Hempty. simpl.
    split; [intros [H | H]; [exact H | discriminate] | now left]. }
  assert (Hnone : future_unload (extensions bot1) allowed = []).
  { destruct (future_unload (extensions bot1) allowed) as [|id rest] eqn:Hfut;
      [reflexivity|].
    assert (Hin : In id (future_unload (extensions bot1) allowed))
      by (rewrite Hfut; now left).
    apply future_unload_In in Hin. destruct Hin as [Hkey Hout].
    exfalso. apply Hout, Hact. now apply is_loaded_keys. }
  split; [exact Hnone|].
  destruct (reconcile_spec allowed bot1)
    as (acc & bot2 & Hrun & _ & _ & _ & _ & Hagain).
  destruct (reconcile_account allowed bot1)
    as (acc1 & bot1' & acc' & bot2' & Hrun' & Hinv1 & Hinv2).
  rewrite Hrun in Hrun'. injection Hrun' as <- <-.
  exists acc, bot2. eexists. split; [exact Hrun|]. split.
  - rewrite reload_all_unfold, Hallowed, Hrun. reflexivity.
  - split.
    + destruct Hinv1 as (_ & _ & _ & _ & Hitems).
      destruct Hinv2 as (Hun & _). rewrite Hun.
      destruct (unloaded acc1) as [|item rest]; [reflexivity|].
      destruct (Hitems item (or_introl eq_refl)) as (id & Hin & _).
      rewrite Hnone in Hin. destruct Hin.
    + intros id Hin. apply Hagain; [now apply Hact | exact Hin].
Qed.

End ListingFacts.

(** ** The further properties on concrete inputs *)

Lemma discovery_closed_form_witness :
  get_all_extensions demo_fs
  = Ok ["cogs.admin"; "cogs.!wip"; "cogs.error";
        "cogs.minigames.chess"; "cogs.minigames.old__init__x"]
  /\ get_allowed_extensions demo_fs
     = Ok ["cogs.admin"; "cogs.error"; "cogs.minigames.chess"].
Proof.
  exact (DiscoveryShape.discovery_closed_form demo_fs _ _ eq_refl eq_refl).
Defined.

Lemma allowed_identifiers_clean_witness :
  PyStr.contains "__init__" "cogs.minigames.chess" = false.
Proof.
  exact (DiscoveryShape.allowed_identifiers_clean demo_fs
           ["cogs.admin"; "cogs.error"; "cogs.minigames.chess"]
           "cogs.minigames.chess" "__init__" eq_refl
           (or_intror (or_intror (or_introl eq_refl)))
           (or_intror (or_introl eq_refl))).
Defined.

Lemma init_extensions_success_witness :
  exists allowed,
    get_allowed_extensions demo_fs = Ok allowed
    /\ NoDup allowed
    /\ (forall id, In id allowed -> active id (demo_bot ["cogs.x"] [] []) = false)
    /\ (forall id,
          active id (mkBot [("cogs.x", "cogs.x"); ("cogs.admin", "cogs.admin");
                            ("cogs.error", "cogs.error");
                            ("cogs.minigames.chess", "cogs.minigames.chess")]
                       (mkDemoHost [] []) []) = true
          <-> In id allowed \/ active id (demo_bot ["cogs.x"] [] []) = true)
    /\ @nil (LogLevel.t * string) = [].
Proof.
  exact (init_extensions_success (HMS := demo_hms) demo_fs
           (demo_bot ["cogs.x"] [] []) _ eq_refl).
Defined.


Lemma report_keeps_every_item_witness :
  PyStr.contains "`cogs.b`"
    (description (create_cogs_embed demo_common ["`cogs.a`"] [] (Some ["`cogs.b`"])
                    (Some []))) = true.
Proof.
  apply (report_keeps_every_item demo_common ["`cogs.a`"] [] ["`cogs.b`"] []).
  right; right; left. now left.
Defined.

Lemma create_txt_file_content_witness :
  exists disk',
    create_txt_file "250101_120000" "ready" true (mkDisk true (fun _ => None))
    = (Ok (mkFile "./log/content_250101_120000.txt" "content_250101_120000.txt"),
       disk')
    /\ file_content disk' "./log/content_250101_120000.txt" = Some "ready"
    /\ forall p, p <> "./log/content_250101_120000.txt" ->
         file_content disk' p = None.
Proof.
  exact (proj1 (TxtFileFacts.create_txt_file_content "250101_120000" "ready" true
                  (mkDisk true (fun _ => None))) eq_refl).
Defined.

Lemma bin_reports_bit_witness :
  bin (fun s _ _ => s) 4096 (-6) (Some 1%Z) = Sends "`1`"
  /\ bin (fun s _ _ => s) 4096 (-6) (Some 0%Z) = Sends "`0`".
Proof.
  split.
  - apply (proj1 (BinFacts.bin_reports_bit (fun s _ _ => s) 4096 (-6) 1)).
    split; discriminate.
  - apply (proj1 (BinFacts.bin_reports_bit (fun s _ _ => s) 4096 (-6) 0)).
    split; discriminate.
Defined.

Lemma startup_then_reload_all_witness :
  future_unload
    (extensions (mkBot [("cogs.admin", "cogs.admin"); ("cogs.error", "cogs.error");
                        ("cogs.minigames.chess", "cogs.minigames.chess")]
                   (mkDemoHost [] []) []))
    ["cogs.admin"; "cogs.error"; "cogs.minigames.chess"] = [].
Proof.
  exact (proj1 (startup_then_reload_all (HMS := demo_hms) demo_common demo_fs
                  (demo_bot [] [] []) _ _ eq_refl eq_refl eq_refl)).
Defined.
